(** * The dashboard's real-time layer (static/agent_dashboard.js)

    A shallow embedding of the WebSocket client of the agent dashboard:
    the registry of active meetings (a JavaScript [Map]), the dispatcher
    [handleWebSocketMessage], the live-updates feed, the connection
    handling of [connectWebSocket] and the heartbeat interval.

    JavaScript values are an inductive type, handlers are computations in
    a state-and-exception monad over the page, and the browser's event
    loop is a step function that runs one handler per task. *)

From Stdlib Require Import ZArith QArith List String Ascii Bool Lia.
From Stdlib Require Import DecimalString DecimalFacts DecimalPos.
Import ListNotations.

Set Warnings "-register-all".
Close Scope Q_scope.
Open Scope list_scope.
Open Scope string_scope.

(* ===================================================================== *)
(** ** JavaScript values *)
(* ===================================================================== *)

(** The values a decoded message is made of, plus [undefined].  Arrays and
    objects carry the identity [ref] they were allocated with: two objects
    are the same key of a [Map] only when they are the same object.
    Numbers are held by their exact decimal value (the rounding to a
    double is not modelled).  Strings are held as their UTF-8 bytes, the
    form they have on the wire. *)
Inductive jsval : Type :=
| JUndefined
| JNull
| JBool (b : bool)
| JNum (q : Q)
| JStr (s : string)
| JArr (ref : nat) (elems : list jsval)
| JObj (ref : nat) (props : list (string * jsval)).

Inductive error : Type :=
| SyntaxError
| TypeError
| InvalidStateError.

(** How an evaluation ends: with a value, or with a thrown exception. *)
Inductive completion (A : Type) : Type :=
| Normal (a : A)
| Throw (e : error).
Arguments Normal {A} a.
Arguments Throw {A} e.

Definition is_throw {A} (c : completion A) : bool :=
  match c with Throw _ => true | Normal _ => false end.

(** Evaluation in sequence: the first throw ends it. *)
Definition and_then {A B} (c : completion A) (k : A -> completion B)
  : completion B :=
  match c with
  | Normal a => k a
  | Throw e => Throw e
  end.

Declare Scope completion_scope.
Delimit Scope completion_scope with completion.
Notation "x <- c ;; k" := (and_then c (fun x => k))
  (at level 61, c at next level, right associativity) : completion_scope.

(** The callback of [map] or [forEach] applied to the elements in order. *)
Fixpoint traverse {A B} (f : A -> completion B) (l : list A)
  : completion (list B) :=
  match l with
  | [] => Normal []
  | x :: r =>
      (y <- f x ;; ys <- traverse f r ;; Normal (y :: ys))%completion
  end.

Module JS.

Fixpoint assoc {A} (name : string) (l : list (string * A)) : option A :=
  match l with
  | [] => None
  | (k, v) :: r => if String.eqb k name then Some v else assoc name r
  end.

(** [v.name] for the property names the script reads (type, meeting,
    meeting_id, title, text, data, meetings, platform, start_time,
    duration_minutes, status): none of them is inherited from a
    prototype, so the result is the own property or [undefined];
    reading a property of [null] or [undefined] throws. *)
Definition get (v : jsval) (name : string) : completion jsval :=
  match v with
  | JUndefined | JNull => Throw TypeError
  | JObj _ props =>
      match assoc name props with
      | Some x => Normal x
      | None => Normal JUndefined
      end
  | _ => Normal JUndefined
  end.

(** [!v] is [negb (truthy v)]. *)
Definition truthy (v : jsval) : bool :=
  match v with
  | JUndefined | JNull => false
  | JBool b => b
  | JNum q => negb (Qeq_bool q 0)
  | JStr s => negb (String.eqb s "")
  | JArr _ _ | JObj _ _ => true
  end.

(** [a === b]. *)
Definition strict_equal (a b : jsval) : bool :=
  match a, b with
  | JUndefined, JUndefined => true
  | JNull, JNull => true
  | JBool x, JBool y => Bool.eqb x y
  | JNum x, JNum y => Qeq_bool x y
  | JStr x, JStr y => String.eqb x y
  | JArr i _, JArr j _ => Nat.eqb i j
  | JObj i _, JObj j _ => Nat.eqb i j
  | _, _ => false
  end.

(** SameValueZero, the key comparison of [Map].  It differs from [===]
    on NaN and on the sign of zero only, and neither exists here. *)
Definition same_value_zero (a b : jsval) : bool := strict_equal a b.

(** Whether ToString (and ToPrimitive) of a decoded value completes.  An
    object converts through [Object.prototype.toString] unless it has an
    own property [toString], which coming from JSON is never callable;
    an array joins the conversions of its elements, [null] and
    [undefined] giving the empty string. *)
Fixpoint convertible (v : jsval) : bool :=
  match v with
  | JArr _ elems =>
      (fix all (l : list jsval) : bool :=
         match l with
         | [] => true
         | x :: r => convertible x && all r
         end) elems
  | JObj _ props =>
      match assoc "toString" props with
      | Some _ => false
      | None => true
      end
  | _ => true
  end.

(** A value substituted in a template literal: converted to a string by
    the runtime, which throws when the conversion does. *)
Definition ToString (v : jsval) : completion jsval :=
  if convertible v then Normal v else Throw TypeError.

End JS.

(* ===================================================================== *)
(** ** Map: entries in insertion order *)
(* ===================================================================== *)

Module JSMap.

Definition t : Type := list (jsval * jsval).

Definition has (k : jsval) (m : t) : bool :=
  existsb (fun e => JS.same_value_zero (fst e) k) m.

(** [m.set(k, v)]: the value of an existing entry is replaced where the
    entry stands; a new entry goes to the end. *)
Fixpoint set (k v : jsval) (m : t) : t :=
  match m with
  | [] => [(k, v)]
  | (k', v') :: r =>
      if JS.same_value_zero k' k then (k', v) :: r
      else (k', v') :: set k v r
  end.

(** [m.delete(k)]. *)
Fixpoint delete (k : jsval) (m : t) : t :=
  match m with
  | [] => []
  | (k', v') :: r =>
      if JS.same_value_zero k' k then r
      else (k', v') :: delete k r
  end.

Definition size (m : t) : nat := List.length m.

(** No two entries have the same key. *)
Fixpoint unique_keys (m : t) : bool :=
  match m with
  | [] => true
  | (k, _) :: r => negb (has k r) && unique_keys r
  end.

End JSMap.

(* ===================================================================== *)
(** ** JSON text *)
(* ===================================================================== *)

(** [JSON.parse] and [JSON.stringify] are built into the runtime.  The
    decoder below follows the JSON grammar (ECMA-404) the way
    [JSON.parse] applies it: no leading zeros, no control characters in
    strings, nothing but white space after the value, and a repeated
    member name keeps its last value. *)
Module JSON.

Definition quote : ascii := "034"%char.
Definition backslash : ascii := "\"%char.

Definition is_ws (c : ascii) : bool :=
  match c with
  | " "%char | "009"%char | "010"%char | "013"%char => true
  | _ => false
  end.

Fixpoint skip_ws (s : string) : string :=
  match s with
  | String c r => if is_ws c then skip_ws r else s
  | EmptyString => s
  end.

Definition digit (c : ascii) : option Z :=
  let n := nat_of_ascii c in
  if (48 <=? n)%nat && (n <=? 57)%nat then Some (Z.of_nat (n - 48)) else None.

Definition hex (c : ascii) : option N :=
  let n := N_of_ascii c in
  if (48 <=? n)%N && (n <=? 57)%N then Some (n - 48)%N
  else if (65 <=? n)%N && (n <=? 70)%N then Some (n - 55)%N
  else if (97 <=? n)%N && (n <=? 102)%N then Some (n - 87)%N
  else None.

Definition hex4 (a b c d : ascii) : option N :=
  match hex a, hex b, hex c, hex d with
  | Some x, Some y, Some z, Some w => Some (((x * 16 + y) * 16 + z) * 16 + w)%N
  | _, _, _, _ => None
  end.

(** What a string literal is made of: bytes of the text, and the code
    units written as [\uXXXX]. *)
Inductive item : Type :=
| Byte (c : ascii)
| Unit (u : N).

Definition escape (e : ascii) : option ascii :=
  match e with
  | "034"%char => Some "034"%char
  | "\"%char => Some "\"%char
  | "/"%char => Some "/"%char
  | "b"%char => Some "008"%char
  | "f"%char => Some "012"%char
  | "n"%char => Some "010"%char
  | "r"%char => Some "013"%char
  | "t"%char => Some "009"%char
  | _ => None
  end.

(** The text after an opening quote, up to the closing one. *)
Fixpoint read_string (s : string) : option (list item * string) :=
  match s with
  | EmptyString => None
  | String c r =>
      if Ascii.eqb c quote then Some ([], r)
      else if Ascii.eqb c backslash then
        match r with
        | EmptyString => None
        | String e r1 =>
            if Ascii.eqb e "u" then
              match r1 with
              | String h1 (String h2 (String h3 (String h4 r2))) =>
                  match hex4 h1 h2 h3 h4, read_string r2 with
                  | Some u, Some (l, rest) => Some (Unit u :: l, rest)
                  | _, _ => None
                  end
              | _ => None
              end
            else
              match escape e, read_string r1 with
              | Some b, Some (l, rest) => Some (Byte b :: l, rest)
              | _, _ => None
              end
        end
      else if (nat_of_ascii c <? 32)%nat then None
      else
        match read_string r with
        | Some (l, rest) => Some (Byte c :: l, rest)
        | None => None
        end
  end.

Definition byte (n : N) : string := String (ascii_of_N n) "".
Arguments byte n%_N.

(** UTF-8 of a code point (a lone surrogate is written like any other
    three-byte code point). *)
Definition utf8 (cp : N) : string :=
  if (cp <? 128)%N then byte cp
  else if (cp <? 2048)%N then
    byte (192 + cp / 64) ++ byte (128 + cp mod 64)
  else if (cp <? 65536)%N then
    byte (224 + cp / 4096) ++ byte (128 + (cp / 64) mod 64)
      ++ byte (128 + cp mod 64)
  else
    byte (240 + cp / 262144) ++ byte (128 + (cp / 4096) mod 64)
      ++ byte (128 + (cp / 64) mod 64) ++ byte (128 + cp mod 64).

Definition is_high (u : N) : bool := ((55296 <=? u) && (u <=? 56319))%N.
Definition is_low (u : N) : bool := ((56320 <=? u) && (u <=? 57343))%N.

(** The string a literal denotes; a high surrogate followed by a low one
    is one code point. *)
Fixpoint encode (l : list item) : string :=
  match l with
  | [] => ""
  | Byte c :: r => String c (encode r)
  | Unit hi :: r =>
      match r with
      | Unit lo :: r' =>
          if is_high hi && is_low lo
          then utf8 (65536 + (hi - 55296) * 1024 + (lo - 56320))%N ++ encode r'
          else utf8 hi ++ encode r
      | _ => utf8 hi ++ encode r
      end
  end.

Fixpoint read_digits (s : string) (acc : Z) (n : Z) : Z * Z * string :=
  match s with
  | String c r =>
      match digit c with
      | Some d => read_digits r (acc * 10 + d)%Z (n + 1)%Z
      | None => (acc, n, s)
      end
  | EmptyString => (acc, n, s)
  end.

(** [m * 10^e]. *)
Definition decimal (m e : Z) : Q :=
  if (0 <=? e)%Z then inject_Z (m * 10 ^ e)
  else Qmake m (Z.to_pos (10 ^ (- e))).

(** The text after the character [c], when the text starts with it. *)
Definition starts (c : ascii) (s : string) : option string :=
  match s with
  | String x r => if Ascii.eqb x c then Some r else None
  | EmptyString => None
  end.

(** A number: an optional minus, then 0 or digits without a leading 0,
    then optionally a point and digits, then optionally e or E, a sign
    and digits. *)
Definition read_number (s : string) : option (Q * string) :=
  let (neg, s1) :=
    match starts "-" s with
    | Some r => (true, r)
    | None => (false, s)
    end in
  match s1 with
  | EmptyString => None
  | String c r =>
      match digit c with
      | None => None
      | Some d =>
          let '(i, _, s2) :=
            if (d =? 0)%Z then (0%Z, 1%Z, r) else read_digits r d 1 in
          let frac :=
            match starts "." s2 with
            | Some r2 =>
                let '(m, n, s3) := read_digits r2 i 0 in
                if (n =? 0)%Z then None else Some (m, n, s3)
            | None => Some (i, 0%Z, s2)
            end in
          match frac with
          | None => None
          | Some (m, n, s3) =>
              let exponent :=
                match s3 with
                | String x r3 =>
                    if Ascii.eqb x "e" || Ascii.eqb x "E" then
                      let (minus, r4) :=
                        match starts "-" r3 with
                        | Some r' => (true, r')
                        | None =>
                            match starts "+" r3 with
                            | Some r' => (false, r')
                            | None => (false, r3)
                            end
                        end in
                      let '(e, k, s4) := read_digits r4 0 0 in
                      if (k =? 0)%Z then None
                      else Some ((if minus then - e else e)%Z, s4)
                    else Some (0%Z, s3)
                | EmptyString => Some (0%Z, s3)
                end in
              match exponent with
              | None => None
              | Some (e, rest) =>
                  Some (decimal (if neg then - m else m) (e - n), rest)
              end
          end
      end
  end.

Fixpoint strip (prefix s : string) : option string :=
  match prefix, s with
  | EmptyString, _ => Some s
  | String a p, String b r => if Ascii.eqb a b then strip p r else None
  | _, _ => None
  end.

(** Defining a member: a name already present keeps its place and takes
    the new value. *)
Fixpoint define (name : string) (v : jsval) (props : list (string * jsval))
  : list (string * jsval) :=
  match props with
  | [] => [(name, v)]
  | (k, x) :: r =>
      if String.eqb k name then (k, v) :: r else (k, x) :: define name v r
  end.

(** One value, then its elements or members; [next] is the next free
    object identity.  Every call below a value reads at least one more
    character, so the length of the text bounds the depth. *)
Fixpoint parse_value (fuel next : nat) (s : string) {struct fuel}
  : option (jsval * nat * string) :=
  match fuel with
  | O => None
  | S fuel' =>
      match skip_ws s with
      | EmptyString => None
      | String c r =>
          if Ascii.eqb c "{" then
            match starts "}" (skip_ws r) with
            | Some r' => Some (JObj next [], S next, r')
            | None =>
                match parse_members fuel' (S next) r [] with
                | Some (props, next', r') => Some (JObj next props, next', r')
                | None => None
                end
            end
          else if Ascii.eqb c "[" then
            match starts "]" (skip_ws r) with
            | Some r' => Some (JArr next [], S next, r')
            | None =>
                match parse_elements fuel' (S next) r [] with
                | Some (elems, next', r') => Some (JArr next elems, next', r')
                | None => None
                end
            end
          else if Ascii.eqb c quote then
            match read_string r with
            | Some (l, r') => Some (JStr (encode l), next, r')
            | None => None
            end
          else if Ascii.eqb c "t" then
            match strip "rue" r with
            | Some r' => Some (JBool true, next, r')
            | None => None
            end
          else if Ascii.eqb c "f" then
            match strip "alse" r with
            | Some r' => Some (JBool false, next, r')
            | None => None
            end
          else if Ascii.eqb c "n" then
            match strip "ull" r with
            | Some r' => Some (JNull, next, r')
            | None => None
            end
          else
            match read_number (String c r) with
            | Some (q, r') => Some (JNum q, next, r')
            | None => None
            end
      end
  end
with parse_elements (fuel next : nat) (s : string) (acc : list jsval)
  {struct fuel} : option (list jsval * nat * string) :=
  match fuel with
  | O => None
  | S fuel' =>
      match parse_value fuel' next s with
      | None => None
      | Some (v, next', r) =>
          match starts "," (skip_ws r) with
          | Some r' => parse_elements fuel' next' r' (acc ++ [v])%list
          | None =>
              match starts "]" (skip_ws r) with
              | Some r' => Some ((acc ++ [v])%list, next', r')
              | None => None
              end
          end
      end
  end
with parse_members (fuel next : nat) (s : string)
  (acc : list (string * jsval)) {struct fuel}
  : option (list (string * jsval) * nat * string) :=
  match fuel with
  | O => None
  | S fuel' =>
      match starts quote (skip_ws s) with
      | None => None
      | Some r =>
          match read_string r with
          | None => None
          | Some (l, r1) =>
              match starts ":" (skip_ws r1) with
              | None => None
              | Some r2 =>
                  match parse_value fuel' next r2 with
                  | None => None
                  | Some (v, next', r3) =>
                      let acc' := define (encode l) v acc in
                      match starts "," (skip_ws r3) with
                      | Some r4 => parse_members fuel' next' r4 acc'
                      | None =>
                          match starts "}" (skip_ws r3) with
                          | Some r4 => Some (acc', next', r4)
                          | None => None
                          end
                      end
                  end
              end
          end
      end
  end.

(** [JSON.parse(text)]: [None] stands for the SyntaxError it throws. *)
Definition parse (next : nat) (text : string) : option (jsval * nat) :=
  match parse_value (S (String.length text)) next text with
  | Some (v, next', r) =>
      match skip_ws r with
      | EmptyString => Some (v, next')
      | _ => None
      end
  | None => None
  end.

(** The digits of an integer, as [JSON.stringify] writes a number that is
    an integer below 10^21 in magnitude. *)
Definition digits (z : Z) : string :=
  NilZero.string_of_int (Z.to_int z).

Definition quoted (s : string) : string :=
  String quote s ++ String quote "".

(** [JSON.stringify({type: 'ping', timestamp: t})]: the members in the
    order they were written, no white space. *)
Definition stringify_ping (t : Z) : string :=
  "{" ++ quoted "type" ++ ":" ++ quoted "ping" ++ ","
      ++ quoted "timestamp" ++ ":" ++ digits t ++ "}".

(** Examples are written with an apostrophe where the text has a quote. *)
Fixpoint dq (s : string) : string :=
  match s with
  | EmptyString => EmptyString
  | String c r => String (if Ascii.eqb c "'" then quote else c) (dq r)
  end.

End JSON.

(* ===================================================================== *)
(** ** Markup assigned to innerHTML *)
(* ===================================================================== *)

(** What the browser makes of a string assigned to [innerHTML], as far as
    [querySelectorAll('.alert')] can tell: the number of elements of class
    [alert] it creates.  The string is read as the HTML tokenizer reads
    it (text, start and end tags, attributes bare, unquoted and quoted,
    comments), and a start tag counts when its first attribute named
    class has [alert] among its names.  Three things the browser does are
    left out: character references inside an attribute value, markup that
    stands as text (inside script, style, textarea and the like, or in a
    CDATA section of SVG or MathML), and what the tree builder adds or
    drops on its own (a table part outside a table, a formatting element
    it opens again, the content of template).  Class names are compared
    exactly, as in a document with a doctype. *)
Module HTML.

Definition space (c : ascii) : bool :=
  let n := nat_of_ascii c in
  (n =? 9)%nat || (n =? 10)%nat || (n =? 12)%nat || (n =? 13)%nat
  || (n =? 32)%nat.

Definition letter (c : ascii) : bool :=
  let n := nat_of_ascii c in
  ((65 <=? n)%nat && (n <=? 90)%nat) || ((97 <=? n)%nat && (n <=? 122)%nat).

Definition lower (c : ascii) : ascii :=
  let n := nat_of_ascii c in
  if (65 <=? n)%nat && (n <=? 90)%nat then ascii_of_nat (n + 32) else c.

(** The names of a class attribute: its value split at white space. *)
Fixpoint class_names (v : string) : list string :=
  match v with
  | EmptyString => [EmptyString]
  | String c r =>
      if space c then EmptyString :: class_names r
      else
        match class_names r with
        | [] => [String c EmptyString]
        | w :: ws => String c w :: ws
        end
  end.

Definition has_class (name v : string) : bool :=
  existsb (String.eqb name) (class_names v).

(** A tag being read: whether it is a start tag, and the value of its
    first attribute named class. *)
Record tag : Type := { start_tag : bool; class_value : option string }.

Inductive quote : Type := DoubleQuoted | SingleQuoted | Unquoted.

(** The states of the tokenizer, under the names the HTML standard gives
    them.  The states of a DOCTYPE and of CDATA outside foreign content
    end at the first [>], as a bogus comment does. *)
Inductive state : Type :=
| Data
| TagOpen
| EndTagOpen
| TagName (start : bool)
| BeforeAttributeName (t : tag)
| AttributeName (t : tag) (n : string)
| AfterAttributeName (t : tag) (n : string)
| BeforeAttributeValue (t : tag) (n : string)
| AttributeValue (q : quote) (t : tag) (n v : string)
| AfterAttributeValue (t : tag)
| SelfClosingStartTag (t : tag)
| BogusComment
| MarkupDeclarationOpen
| MarkupDeclarationDash
| CommentStart
| CommentStartDash
| Comment
| CommentEndDash
| CommentEnd
| CommentEndBang.

(** An attribute is complete: a second attribute of the same name is
    dropped. *)
Definition attribute (t : tag) (n v : string) : tag :=
  match class_value t with
  | None =>
      if String.eqb n "class"
      then {| start_tag := start_tag t; class_value := Some v |}
      else t
  | Some _ => t
  end.

Definition snoc (s : string) (c : ascii) : string :=
  s ++ String c EmptyString.

(** The tag is complete: a start tag creates an element. *)
Definition emit (t : tag) : state * nat :=
  (Data,
   if start_tag t
   then match class_value t with
        | Some v => if has_class "alert" v then 1%nat else 0%nat
        | None => 0%nat
        end
   else 0%nat).

Definition before_attribute_name (t : tag) (c : ascii) : state * nat :=
  if space c then (BeforeAttributeName t, 0%nat)
  else if Ascii.eqb c "/" then (SelfClosingStartTag t, 0%nat)
  else if Ascii.eqb c ">" then emit t
  else (AttributeName t (String (lower c) EmptyString), 0%nat).

Definition bogus_comment (c : ascii) : state * nat :=
  if Ascii.eqb c ">" then (Data, 0%nat) else (BogusComment, 0%nat).

(** One character: the state after it, and the elements of class
    [alert] created by it. *)
Definition next (q : state) (c : ascii) : state * nat :=
  match q with
  | Data => (if Ascii.eqb c "<" then TagOpen else Data, 0%nat)
  | TagOpen =>
      if letter c then (TagName true, 0%nat)
      else if Ascii.eqb c "/" then (EndTagOpen, 0%nat)
      else if Ascii.eqb c "!" then (MarkupDeclarationOpen, 0%nat)
      else if Ascii.eqb c "?" then (BogusComment, 0%nat)
      else if Ascii.eqb c "<" then (TagOpen, 0%nat)
      else (Data, 0%nat)
  | EndTagOpen =>
      if letter c then (TagName false, 0%nat)
      else if Ascii.eqb c ">" then (Data, 0%nat)
      else (BogusComment, 0%nat)
  | TagName start =>
      let t := {| start_tag := start; class_value := None |} in
      if space c then (BeforeAttributeName t, 0%nat)
      else if Ascii.eqb c "/" then (SelfClosingStartTag t, 0%nat)
      else if Ascii.eqb c ">" then emit t
      else (TagName start, 0%nat)
  | BeforeAttributeName t => before_attribute_name t c
  | AttributeName t n =>
      if space c then (AfterAttributeName t n, 0%nat)
      else if Ascii.eqb c "/"
      then (SelfClosingStartTag (attribute t n EmptyString), 0%nat)
      else if Ascii.eqb c ">" then emit (attribute t n EmptyString)
      else if Ascii.eqb c "=" then (BeforeAttributeValue t n, 0%nat)
      else (AttributeName t (snoc n (lower c)), 0%nat)
  | AfterAttributeName t n =>
      if space c then (AfterAttributeName t n, 0%nat)
      else if Ascii.eqb c "/"
      then (SelfClosingStartTag (attribute t n EmptyString), 0%nat)
      else if Ascii.eqb c "=" then (BeforeAttributeValue t n, 0%nat)
      else if Ascii.eqb c ">" then emit (attribute t n EmptyString)
      else (AttributeName (attribute t n EmptyString)
              (String (lower c) EmptyString), 0%nat)
  | BeforeAttributeValue t n =>
      if space c then (BeforeAttributeValue t n, 0%nat)
      else if Ascii.eqb c (ascii_of_nat 34)
      then (AttributeValue DoubleQuoted t n EmptyString, 0%nat)
      else if Ascii.eqb c "'"
      then (AttributeValue SingleQuoted t n EmptyString, 0%nat)
      else if Ascii.eqb c ">" then emit (attribute t n EmptyString)
      else (AttributeValue Unquoted t n (String c EmptyString), 0%nat)
  | AttributeValue DoubleQuoted t n v =>
      if Ascii.eqb c (ascii_of_nat 34)
      then (AfterAttributeValue (attribute t n v), 0%nat)
      else (AttributeValue DoubleQuoted t n (snoc v c), 0%nat)
  | AttributeValue SingleQuoted t n v =>
      if Ascii.eqb c "'"
      then (AfterAttributeValue (attribute t n v), 0%nat)
      else (AttributeValue SingleQuoted t n (snoc v c), 0%nat)
  | AttributeValue Unquoted t n v =>
      if space c then (BeforeAttributeName (attribute t n v), 0%nat)
      else if Ascii.eqb c ">" then emit (attribute t n v)
      else (AttributeValue Unquoted t n (snoc v c), 0%nat)
  | AfterAttributeValue t => before_attribute_name t c
  | SelfClosingStartTag t =>
      if Ascii.eqb c ">" then emit t else before_attribute_name t c
  | BogusComment => bogus_comment c
  | MarkupDeclarationOpen =>
      if Ascii.eqb c "-" then (MarkupDeclarationDash, 0%nat)
      else bogus_comment c
  | MarkupDeclarationDash =>
      if Ascii.eqb c "-" then (CommentStart, 0%nat) else bogus_comment c
  | CommentStart =>
      if Ascii.eqb c "-" then (CommentStartDash, 0%nat)
      else if Ascii.eqb c ">" then (Data, 0%nat)
      else (Comment, 0%nat)
  | CommentStartDash =>
      if Ascii.eqb c "-" then (CommentEnd, 0%nat)
      else if Ascii.eqb c ">" then (Data, 0%nat)
      else (Comment, 0%nat)
  | Comment =>
      if Ascii.eqb c "-" then (CommentEndDash, 0%nat) else (Comment, 0%nat)
  | CommentEndDash =>
      if Ascii.eqb c "-" then (CommentEnd, 0%nat) else (Comment, 0%nat)
  | CommentEnd =>
      if Ascii.eqb c ">" then (Data, 0%nat)
      else if Ascii.eqb c "!" then (CommentEndBang, 0%nat)
      else if Ascii.eqb c "-" then (CommentEnd, 0%nat)
      else (Comment, 0%nat)
  | CommentEndBang =>
      if Ascii.eqb c "-" then (CommentEndDash, 0%nat)
      else if Ascii.eqb c ">" then (Data, 0%nat)
      else (Comment, 0%nat)
  end.

(** The elements of class [alert] created from state [q] on; a tag the
    string ends in creates nothing. *)
Fixpoint count (q : state) (s : string) : nat :=
  match s with
  | EmptyString => 0%nat
  | String c r => (snd (next q c) + count (fst (next q c)) r)%nat
  end.

Definition alerts (s : string) : nat := count Data s.

(** No [<] in the string: it cannot open a tag. *)
Fixpoint no_markup (s : string) : bool :=
  match s with
  | EmptyString => true
  | String c r => negb (Ascii.eqb c "<") && no_markup r
  end.

End HTML.

(* ===================================================================== *)
(** ** The page *)
(* ===================================================================== *)

(** [WebSocket.readyState]. *)
Inductive ready_state : Type := CONNECTING | OPEN | CLOSING | CLOSED.

Record socket : Type := { url : string; readyState : ready_state }.

(** The functions the script hands to [setTimeout] and [setInterval]. *)
Inductive callback : Type :=
| ConnectWebSocket
| Heartbeat.

(** A template literal: its text, and the values substituted in it (the
    runtime turns them into strings).  [Substring s a b] is
    [s.substring(a, b)]. *)
Inductive piece : Type :=
| Lit (s : string)
| Sub (v : jsval)
| Substring (s : string) (a b : nat).

Definition text : Type := list piece.

(** One line of the live-updates container: the element of class
    [alert] that [addLiveUpdate] creates.  [message] is the text it was
    made from, and [nested] the number of elements of class [alert]
    inside it, which the markup of the message created and which have not
    been removed since.  [timestamp] is the time whose
    [toLocaleTimeString()] is shown; it is taken to hold no markup. *)
Record update : Type :=
  { className : string; timestamp : Z; message : text; nested : nat }.

(** One card of the active-meetings container, by the values substituted
    in its markup. *)
Record card : Type :=
  { card_id : jsval; card_title : jsval; card_platform : jsval;
    card_start : jsval }.

Inductive view : Type :=
| ViewServed
| NoActiveMeetings
| Cards (l : list card).

(** One row of the meeting-history table; [None] is the cell N/A. *)
Record row : Type :=
  { row_title : jsval; row_platform : jsval; row_start : option jsval;
    row_duration : option jsval; row_status : jsval; row_id : jsval }.

Inductive history : Type :=
| HistoryServed
| NoHistory
| Rows (l : list row).

Inductive level : Type := LogLevel | ErrorLevel.

Inductive detail : Type :=
| NoDetail
| Value (v : jsval)
| Exception (e : error)
| EventObject.

(** A line of the console; [Uncaught] is the report of an exception that
    left a handler. *)
Inductive entry : Type :=
| Console (l : level) (label : string) (d : detail)
| Uncaught (e : error).

(** The script's two globals, the parts of the document it writes, and
    what it asked of the browser. *)
Record page : Type :=
  { activeMeetings : JSMap.t;
    websocketConnection : option nat;
    sockets : list socket;
    timeouts : list (Z * callback);
    intervals : list (Z * callback);
    live_updates : list update;
    active_meetings : view;
    meeting_history : history;
    platform_status : list (string * string);
    console : list entry;
    sent : list (nat * string);
    requests : list string;
    now : Z;
    next_ref : nat;
    location_protocol : string;
    location_host : string }.

Definition set_activeMeetings (f : JSMap.t -> JSMap.t) (st : page) : page :=
  {| activeMeetings := f (activeMeetings st);
     websocketConnection := websocketConnection st;
     sockets := sockets st; timeouts := timeouts st;
     intervals := intervals st; live_updates := live_updates st;
     active_meetings := active_meetings st;
     meeting_history := meeting_history st;
     platform_status := platform_status st; console := console st;
     sent := sent st; requests := requests st; now := now st;
     next_ref := next_ref st; location_protocol := location_protocol st;
     location_host := location_host st |}.

Definition set_websocketConnection (c : option nat) (st : page) : page :=
  {| activeMeetings := activeMeetings st;
     websocketConnection := c;
     sockets := sockets st; timeouts := timeouts st;
     intervals := intervals st; live_updates := live_updates st;
     active_meetings := active_meetings st;
     meeting_history := meeting_history st;
     platform_status := platform_status st; console := console st;
     sent := sent st; requests := requests st; now := now st;
     next_ref := next_ref st; location_protocol := location_protocol st;
     location_host := location_host st |}.

Definition set_sockets (f : list socket -> list socket) (st : page) : page :=
  {| activeMeetings := activeMeetings st;
     websocketConnection := websocketConnection st;
     sockets := f (sockets st); timeouts := timeouts st;
     intervals := intervals st; live_updates := live_updates st;
     active_meetings := active_meetings st;
     meeting_history := meeting_history st;
     platform_status := platform_status st; console := console st;
     sent := sent st; requests := requests st; now := now st;
     next_ref := next_ref st; location_protocol := location_protocol st;
     location_host := location_host st |}.

Definition set_timeouts (f : list (Z * callback) -> list (Z * callback))
  (st : page) : page :=
  {| activeMeetings := activeMeetings st;
     websocketConnection := websocketConnection st;
     sockets := sockets st; timeouts := f (timeouts st);
     intervals := intervals st; live_updates := live_updates st;
     active_meetings := active_meetings st;
     meeting_history := meeting_history st;
     platform_status := platform_status st; console := console st;
     sent := sent st; requests := requests st; now := now st;
     next_ref := next_ref st; location_protocol := location_protocol st;
     location_host := location_host st |}.

Definition set_live_updates (f : list update -> list update) (st : page)
  : page :=
  {| activeMeetings := activeMeetings st;
     websocketConnection := websocketConnection st;
     sockets := sockets st; timeouts := timeouts st;
     intervals := intervals st; live_updates := f (live_updates st);
     active_meetings := active_meetings st;
     meeting_history := meeting_history st;
     platform_status := platform_status st; console := console st;
     sent := sent st; requests := requests st; now := now st;
     next_ref := next_ref st; location_protocol := location_protocol st;
     location_host := location_host st |}.

Definition set_active_meetings (v : view) (st : page) : page :=
  {| activeMeetings := activeMeetings st;
     websocketConnection := websocketConnection st;
     sockets := sockets st; timeouts := timeouts st;
     intervals := intervals st; live_updates := live_updates st;
     active_meetings := v;
     meeting_history := meeting_history st;
     platform_status := platform_status st; console := console st;
     sent := sent st; requests := requests st; now := now st;
     next_ref := next_ref st; location_protocol := location_protocol st;
     location_host := location_host st |}.

Definition set_meeting_history (h : history) (st : page) : page :=
  {| activeMeetings := activeMeetings st;
     websocketConnection := websocketConnection st;
     sockets := sockets st; timeouts := timeouts st;
     intervals := intervals st; live_updates := live_updates st;
     active_meetings := active_meetings st;
     meeting_history := h;
     platform_status := platform_status st; console := console st;
     sent := sent st; requests := requests st; now := now st;
     next_ref := next_ref st; location_protocol := location_protocol st;
     location_host := location_host st |}.

Definition set_platform_status (l : list (string * string)) (st : page)
  : page :=
  {| activeMeetings := activeMeetings st;
     websocketConnection := websocketConnection st;
     sockets := sockets st; timeouts := timeouts st;
     intervals := intervals st; live_updates := live_updates st;
     active_meetings := active_meetings st;
     meeting_history := meeting_history st;
     platform_status := l; console := console st;
     sent := sent st; requests := requests st; now := now st;
     next_ref := next_ref st; location_protocol := location_protocol st;
     location_host := location_host st |}.

Definition set_console (f : list entry -> list entry) (st : page) : page :=
  {| activeMeetings := activeMeetings st;
     websocketConnection := websocketConnection st;
     sockets := sockets st; timeouts := timeouts st;
     intervals := intervals st; live_updates := live_updates st;
     active_meetings := active_meetings st;
     meeting_history := meeting_history st;
     platform_status := platform_status st; console := f (console st);
     sent := sent st; requests := requests st; now := now st;
     next_ref := next_ref st; location_protocol := location_protocol st;
     location_host := location_host st |}.

Definition set_sent (f : list (nat * string) -> list (nat * string))
  (st : page) : page :=
  {| activeMeetings := activeMeetings st;
     websocketConnection := websocketConnection st;
     sockets := sockets st; timeouts := timeouts st;
     intervals := intervals st; live_updates := live_updates st;
     active_meetings := active_meetings st;
     meeting_history := meeting_history st;
     platform_status := platform_status st; console := console st;
     sent := f (sent st); requests := requests st; now := now st;
     next_ref := next_ref st; location_protocol := location_protocol st;
     location_host := location_host st |}.

Definition set_requests (f : list string -> list string) (st : page) : page :=
  {| activeMeetings := activeMeetings st;
     websocketConnection := websocketConnection st;
     sockets := sockets st; timeouts := timeouts st;
     intervals := intervals st; live_updates := live_updates st;
     active_meetings := active_meetings st;
     meeting_history := meeting_history st;
     platform_status := platform_status st; console := console st;
     sent := sent st; requests := f (requests st); now := now st;
     next_ref := next_ref st; location_protocol := location_protocol st;
     location_host := location_host st |}.

Definition set_now (t : Z) (st : page) : page :=
  {| activeMeetings := activeMeetings st;
     websocketConnection := websocketConnection st;
     sockets := sockets st; timeouts := timeouts st;
     intervals := intervals st; live_updates := live_updates st;
     active_meetings := active_meetings st;
     meeting_history := meeting_history st;
     platform_status := platform_status st; console := console st;
     sent := sent st; requests := requests st; now := t;
     next_ref := next_ref st; location_protocol := location_protocol st;
     location_host := location_host st |}.

Definition set_next_ref (n : nat) (st : page) : page :=
  {| activeMeetings := activeMeetings st;
     websocketConnection := websocketConnection st;
     sockets := sockets st; timeouts := timeouts st;
     intervals := intervals st; live_updates := live_updates st;
     active_meetings := active_meetings st;
     meeting_history := meeting_history st;
     platform_status := platform_status st; console := console st;
     sent := sent st; requests := requests st; now := now st;
     next_ref := n; location_protocol := location_protocol st;
     location_host := location_host st |}.

(* ===================================================================== *)
(** ** Handlers as computations *)
(* ===================================================================== *)

(** A computation changes the page and ends with a value or a throw; what
    it changed before a throw stays changed. *)
Definition js (A : Type) : Type := page -> completion A * page.

Definition ret {A} (a : A) : js A := fun st => (Normal a, st).

Definition throw {A} (e : error) : js A := fun st => (Throw e, st).

Definition bind {A B} (c : js A) (k : A -> js B) : js B :=
  fun st =>
    match c st with
    | (Normal a, st') => k a st'
    | (Throw e, st') => (Throw e, st')
    end.

Definition lift {A} (c : completion A) : js A := fun st => (c, st).

Definition modify (f : page -> page) : js unit := fun st => (Normal tt, f st).

Definition gets {A} (f : page -> A) : js A := fun st => (Normal (f st), st).

(** [try { c } catch (error) { h error }]. *)
Definition try_catch {A} (c : js A) (h : error -> js A) : js A :=
  fun st =>
    match c st with
    | (Normal a, st') => (Normal a, st')
    | (Throw e, st') => h e st'
    end.

Declare Scope js_scope.
Delimit Scope js_scope with js.
Notation "x <- c ;; k" := (bind c (fun x => k))
  (at level 61, c at next level, right associativity) : js_scope.
Notation "c ;; k" := (bind c (fun _ => k))
  (at level 61, right associativity) : js_scope.
Open Scope js_scope.

Definition console_log (label : string) (d : detail) : js unit :=
  modify (set_console (fun l => (l ++ [Console LogLevel label d])%list)).

Definition console_error (label : string) (d : detail) : js unit :=
  modify (set_console (fun l => (l ++ [Console ErrorLevel label d])%list)).

(** [v.substring(a, b)]: only a string has the method. *)
Definition substring (v : jsval) (a b : nat) : completion piece :=
  match v with
  | JStr s => Normal (Substring s a b)
  | _ => Throw TypeError
  end.

(** [v.length === 0]. *)
Definition length_is_zero (v : jsval) : bool :=
  match v with
  | JArr _ elems => (List.length elems =? 0)%nat
  | JStr s => String.eqb s ""
  | JObj _ props =>
      match JS.assoc "length" props with
      | Some (JNum q) => Qeq_bool q 0
      | _ => false
      end
  | _ => false
  end.

(** [JSON.parse(text)], allocating the objects of the result. *)
Definition JSON_parse (text : string) : js jsval :=
  fun st =>
    match JSON.parse (next_ref st) text with
    | Some (v, n) => (Normal v, set_next_ref n st)
    | None => (Throw SyntaxError, st)
    end.

(** [event.data] of a message: the text of a text frame; a binary frame
    arrives as a Blob. *)
Inductive frame : Type :=
| TextFrame (s : string)
| BinaryFrame.

(** The string [JSON.parse] is applied to. *)
Definition event_data (f : frame) : string :=
  match f with
  | TextFrame s => s
  | BinaryFrame => "[object Blob]"
  end.

(** [new WebSocket(url)], for the well-formed URL the script builds: a
    socket in state CONNECTING. *)
Definition new_WebSocket (wsUrl : string) : js nat :=
  i <- gets (fun st => List.length (sockets st)) ;;
  modify (set_sockets
            (fun l => (l ++ [{| url := wsUrl; readyState := CONNECTING |}])%list)) ;;
  ret i.

Definition ready (i : nat) (st : page) : option ready_state :=
  option_map readyState (nth_error (sockets st) i).

(** [socket.send(data)]: an error while CONNECTING, queued while OPEN,
    discarded afterwards. *)
Definition send (i : nat) (data : string) : js unit :=
  r <- gets (ready i) ;;
  match r with
  | Some CONNECTING => throw InvalidStateError
  | Some OPEN => modify (set_sent (fun l => (l ++ [(i, data)])%list))
  | _ => ret tt
  end.

Definition setTimeout (f : callback) (delay : Z) : js unit :=
  modify (set_timeouts (fun l => (l ++ [(delay, f)])%list)).

(* --------------------------------------------------------------------- *)
(** *** The functions of the script *)
(* --------------------------------------------------------------------- *)

(** [classMap[type] || 'secondary'], for the type names the script
    passes. *)
Definition getBootstrapClass (type : string) : string :=
  if String.eqb type "success" then "success"
  else if String.eqb type "error" then "danger"
  else if String.eqb type "warning" then "warning"
  else if String.eqb type "info" then "info"
  else if String.eqb type "transcript" then "light"
  else "secondary".

(** The characters of a UTF-8 string by the UTF-16 code units they
    take, which is what [substring] counts: a byte that continues a
    character takes none, the first byte of a four-byte character two.
    A character the cut would split in two is left out. *)
Definition continuation (c : ascii) : bool :=
  let n := nat_of_ascii c in (128 <=? n)%nat && (n <? 192)%nat.

Definition code_units (c : ascii) : nat :=
  if (nat_of_ascii c <? 240)%nat then 1%nat else 2%nat.

Fixpoint drop_units (n : nat) (s : string) : string :=
  match s with
  | EmptyString => EmptyString
  | String c r =>
      if continuation c then drop_units n r
      else if (code_units c <=? n)%nat then drop_units (n - code_units c) r
      else s
  end.

Fixpoint take_units (n : nat) (s : string) : string :=
  match s with
  | EmptyString => EmptyString
  | String c r =>
      if continuation c then String c (take_units n r)
      else if (code_units c <=? n)%nat
      then String c (take_units (n - code_units c) r)
      else EmptyString
  end.

(** The string ToString makes of a decoded value, for the markup in it.
    The digits of a number are not modelled (it is written 0); they make
    no markup. *)
Fixpoint show (v : jsval) : string :=
  match v with
  | JUndefined => "undefined"
  | JNull => "null"
  | JBool true => "true"
  | JBool false => "false"
  | JNum _ => "0"
  | JStr s => s
  | JArr _ elems =>
      (fix join (l : list jsval) : string :=
         match l with
         | [] => EmptyString
         | x :: r =>
             (match x with
              | JUndefined | JNull => EmptyString
              | _ => show x
              end)
               ++ match r with
                  | [] => EmptyString
                  | _ :: _ => "," ++ join r
                  end
         end) elems
  | JObj _ _ => "[object Object]"
  end.

(** The characters of one piece of a template literal. *)
Definition piece_source (p : piece) : string :=
  match p with
  | Lit s => s
  | Sub v => show v
  | Substring s a b =>
      take_units (Nat.max a b - Nat.min a b) (drop_units (Nat.min a b) s)
  end.

(** The end of the string assigned to [innerHTML]: the message, then the
    end tag that follows it in the template.  What precedes the message
    in the template is complete markup without an element of class
    [alert], so the tokenizer reads the message from the data state. *)
Definition innerHTML_tail (message : text) : string :=
  String.concat EmptyString (map piece_source message) ++ "</div>".

(** [updatesContainer.querySelectorAll('.alert').length]: the lines and
    the elements of class [alert] inside them. *)
Fixpoint querySelectorAll_alert (l : list update) : nat :=
  match l with
  | [] => 0%nat
  | u :: r => (S (nested u) + querySelectorAll_alert r)%nat
  end.

(** [updates[updates.length - 1].remove()]: the element of class [alert]
    that comes last in the document is inside the last line when that
    line has any, and is the last line itself otherwise. *)
Fixpoint remove_last_alert (l : list update) : list update :=
  match l with
  | [] => []
  | u :: r =>
      match r with
      | [] =>
          match nested u with
          | O => []
          | S n =>
              [{| className := className u; timestamp := timestamp u;
                  message := message u; nested := n |}]
          end
      | _ :: _ => u :: remove_last_alert r
      end
  end.

(** The feed is the list of the lines of the container, first in the
    document first. *)
Definition addLiveUpdate (message : text) (type : string) : js unit :=
  timestamp <- gets now ;;
  let updateElement :=
    {| className :=
         "alert alert-" ++ getBootstrapClass type
           ++ " alert-dismissible fade show mb-2";
       timestamp := timestamp;
       message := message;
       nested := HTML.alerts (innerHTML_tail message) |} in
  modify (set_live_updates (fun l => updateElement :: l)) ;;
  updates <- gets (fun st => querySelectorAll_alert (live_updates st)) ;;
  if (10 <? updates)%nat
  then modify (set_live_updates remove_last_alert)
  else ret tt.

(** The markup of one card: the substituted values in the order the
    template reads them ([new Date(v)] converts [v] to a primitive). *)
Definition render_card (e : jsval * jsval) : completion card :=
  let (meetingId, meeting) := e in
  (id <- JS.ToString meetingId ;;
   title <- JS.get meeting "title" ;;
   title <- JS.ToString title ;;
   platform <- JS.get meeting "platform" ;;
   platform <- JS.ToString platform ;;
   start <- JS.get meeting "start_time" ;;
   start <- JS.ToString start ;;
   Normal {| card_id := id; card_title := title; card_platform := platform;
             card_start := start |})%completion.

Definition updateActiveMeetingsDisplay : js unit :=
  m <- gets activeMeetings ;;
  if (JSMap.size m =? 0)%nat
  then modify (set_active_meetings NoActiveMeetings)
  else
    html <- lift (traverse render_card m) ;;
    modify (set_active_meetings (Cards html)).

Definition addActiveMeeting (meeting : jsval) : js unit :=
  id <- lift (JS.get meeting "meeting_id") ;;
  modify (set_activeMeetings (JSMap.set id meeting)) ;;
  updateActiveMeetingsDisplay.

Definition removeActiveMeeting (meetingId : jsval) : js unit :=
  modify (set_activeMeetings (JSMap.delete meetingId)) ;;
  updateActiveMeetingsDisplay.

(** One row of the history table. *)
Definition render_row (meeting : jsval) : completion row :=
  (title <- JS.get meeting "title" ;;
   title <- JS.ToString title ;;
   platform <- JS.get meeting "platform" ;;
   platform <- JS.ToString platform ;;
   start <- JS.get meeting "start_time" ;;
   start <- (if JS.truthy start
             then s <- JS.ToString start ;; Normal (Some s)
             else Normal None) ;;
   duration <- JS.get meeting "duration_minutes" ;;
   duration <- (if JS.truthy duration
                then d <- JS.ToString duration ;; Normal (Some d)
                else Normal None) ;;
   status <- JS.get meeting "status" ;;
   status <- JS.ToString status ;;
   id <- JS.get meeting "meeting_id" ;;
   id <- JS.ToString id ;;
   Normal {| row_title := title; row_platform := platform;
             row_start := start; row_duration := duration;
             row_status := status; row_id := id |})%completion.

(** Only an array has [map]. *)
Definition updateMeetingHistory (meetings : jsval) : js unit :=
  if negb (JS.truthy meetings) || length_is_zero meetings
  then modify (set_meeting_history NoHistory)
  else
    match meetings with
    | JArr _ elems =>
        rows <- lift (traverse render_row elems) ;;
        modify (set_meeting_history (Rows rows))
    | _ => throw TypeError
    end.

(** [loadMeetingHistory()] up to its first [await]: the request is sent. *)
Definition loadMeetingHistory : js unit :=
  modify (set_requests (fun l => (l ++ ["/api/agent/meetings"])%list)).

(** The rest of [loadMeetingHistory()], once the response is there or the
    request has failed. *)
Definition loadMeetingHistory_resume (response : completion jsval)
  : js unit :=
  try_catch
    (meetings <- lift response ;; updateMeetingHistory meetings)
    (fun e => console_error "Error loading meeting history:" (Exception e)).

Definition handleWebSocketMessage (data : jsval) : js unit :=
  type <- lift (JS.get data "type") ;;
  if JS.strict_equal type (JStr "meeting_started") then
    meeting <- lift (JS.get data "meeting") ;;
    addActiveMeeting meeting ;;
    meeting <- lift (JS.get data "meeting") ;;
    title <- lift (JS.get meeting "title") ;;
    title <- lift (JS.ToString title) ;;
    addLiveUpdate [Lit "Meeting started: "; Sub title] "info"
  else if JS.strict_equal type (JStr "meeting_ended") then
    meeting_id <- lift (JS.get data "meeting_id") ;;
    removeActiveMeeting meeting_id ;;
    meeting <- lift (JS.get data "meeting") ;;
    title <- lift (JS.get meeting "title") ;;
    title <- lift (JS.ToString title) ;;
    addLiveUpdate [Lit "Meeting ended: "; Sub title] "info" ;;
    loadMeetingHistory
  else if JS.strict_equal type (JStr "transcript_update") then
    text <- lift (JS.get data "text") ;;
    head <- lift (substring text 0 50) ;;
    addLiveUpdate [Lit "Live transcript: "; head; Lit "..."] "transcript"
  else if JS.strict_equal type (JStr "meetings_update") then
    d <- lift (JS.get data "data") ;;
    meetings <- lift (JS.get d "meetings") ;;
    updateMeetingHistory meetings
  else if JS.strict_equal type (JStr "pong") then
    ret tt
  else
    console_log "Unknown WebSocket message type:" (Value type).

(** The new socket becomes [websocketConnection]; the four handlers below
    are the ones every socket gets. *)
Definition connectWebSocket : js unit :=
  p <- gets location_protocol ;;
  let protocol := if String.eqb p "https:" then "wss:" else "ws:" in
  host <- gets location_host ;;
  let wsUrl := protocol ++ "//" ++ host ++ "/ws/dashboard" in
  i <- new_WebSocket wsUrl ;;
  modify (set_websocketConnection (Some i)).

Definition onopen : js unit :=
  console_log "Connected to dashboard WebSocket" NoDetail ;;
  addLiveUpdate [Lit "Connected to real-time updates"] "success".

Definition onmessage (f : frame) : js unit :=
  data <- JSON_parse (event_data f) ;;
  handleWebSocketMessage data.

Definition onclose : js unit :=
  console_log "Dashboard WebSocket closed" NoDetail ;;
  addLiveUpdate [Lit "Disconnected from real-time updates"] "warning" ;;
  setTimeout ConnectWebSocket 3000.

Definition onerror : js unit :=
  console_error "Dashboard WebSocket error:" EventObject ;;
  addLiveUpdate [Lit "Connection error"] "error".

Definition checkPlatformConnections : js unit :=
  modify (set_platform_status
            [("google-status", "Not Connected");
             ("zoom-status", "Not Connected")]).

(** The callback of [setInterval(..., 30000)]. *)
Definition heartbeat : js unit :=
  c <- gets websocketConnection ;;
  match c with
  | None => ret tt
  | Some i =>
      r <- gets (ready i) ;;
      match r with
      | Some OPEN =>
          t <- gets now ;;
          send i (JSON.stringify_ping t)
      | _ => ret tt
      end
  end.

Definition DOMContentLoaded : js unit :=
  loadMeetingHistory ;;
  connectWebSocket ;;
  checkPlatformConnections.

Definition call (f : callback) : js unit :=
  match f with
  | ConnectWebSocket => connectWebSocket
  | Heartbeat => heartbeat
  end.

(* ===================================================================== *)
(** ** The event loop *)
(* ===================================================================== *)

(** The page once the script has been evaluated: the two globals, and
    the interval of the heartbeat. *)
Definition script (protocol host : string) : page :=
  {| activeMeetings := [];
     websocketConnection := None;
     sockets := []; timeouts := [];
     intervals := [(30000%Z, Heartbeat)];
     live_updates := [];
     active_meetings := ViewServed;
     meeting_history := HistoryServed;
     platform_status := []; console := [];
     sent := []; requests := []; now := 0;
     next_ref := 0; location_protocol := protocol;
     location_host := host |}.

(** What the browser hands to the page, one task at a time: the tasks
    of the sockets, of the timers and of the history request.  The clicks
    on the page's buttons (joining or ending a meeting, dismissing a line
    of the feed) are not among them. *)
Inductive event : Type :=
| SocketOpen (i : nat)
| SocketMessage (i : nat) (f : frame)
| SocketError (i : nat)
| SocketClosing (i : nat)
| SocketClose (i : nat)
| TimeoutFires (k : nat)
| IntervalFires (k : nat)
| FetchSettles (response : completion jsval).

(** A handler runs to its end or to an exception, which the browser
    reports; the next task runs either way. *)
Definition run_handler (c : js unit) (st : page) : page :=
  match c st with
  | (Normal _, st') => st'
  | (Throw e, st') => set_console (fun l => (l ++ [Uncaught e])%list) st'
  end.

Fixpoint set_nth {A} (i : nat) (x : A) (l : list A) : list A :=
  match l, i with
  | [], _ => []
  | _ :: r, O => x :: r
  | y :: r, S j => y :: set_nth j x r
  end.

Definition set_ready (i : nat) (r : ready_state) (st : page) : page :=
  set_sockets
    (fun l =>
       match nth_error l i with
       | Some s => set_nth i {| url := url s; readyState := r |} l
       | None => l
       end) st.

Fixpoint remove_nth {A} (k : nat) (l : list A) : list A :=
  match l, k with
  | [], _ => []
  | _ :: r, O => r
  | y :: r, S j => y :: remove_nth j r
  end.

(** One task at time [t].  An event that cannot happen in the state (a
    message on a socket that is neither open nor closing, a close on a
    closed socket, a timer that is not pending) runs no handler. *)
Definition step (st : page) (task : Z * event) : page :=
  let (t, e) := task in
  let st := set_now t st in
  match e with
  | SocketOpen i =>
      match ready i st with
      | Some CONNECTING => run_handler onopen (set_ready i OPEN st)
      | _ => st
      end
  | SocketMessage i f =>
      match ready i st with
      | Some OPEN | Some CLOSING => run_handler (onmessage f) st
      | _ => st
      end
  | SocketError i =>
      match ready i st with
      | Some CONNECTING | Some OPEN | Some CLOSING => run_handler onerror st
      | _ => st
      end
  | SocketClosing i =>
      match ready i st with
      | Some CONNECTING | Some OPEN => set_ready i CLOSING st
      | _ => st
      end
  | SocketClose i =>
      match ready i st with
      | Some CONNECTING | Some OPEN | Some CLOSING =>
          run_handler onclose (set_ready i CLOSED st)
      | _ => st
      end
  | TimeoutFires k =>
      match nth_error (timeouts st) k with
      | Some (_, f) => run_handler (call f) (set_timeouts (remove_nth k) st)
      | None => st
      end
  | IntervalFires k =>
      match nth_error (intervals st) k with
      | Some (_, f) => run_handler (call f) st
      | None => st
      end
  | FetchSettles response =>
      match requests st with
      | _ :: rest =>
          run_handler (loadMeetingHistory_resume response)
            (set_requests (fun _ => rest) st)
      | [] => st
      end
  end.

Definition run (st : page) (tasks : list (Z * event)) : page :=
  fold_left step tasks st.

(** The page after the script and its DOMContentLoaded listener. *)
Definition loaded (protocol host : string) : page :=
  run_handler DOMContentLoaded (script protocol host).

Definition live (s : socket) : bool :=
  match readyState s with
  | CLOSED => false
  | _ => true
  end.

(** The sessions that are connecting, open or closing. *)
Definition live_sessions (st : page) : nat :=
  List.length (filter live (sockets st)).

(* ===================================================================== *)
(** ** Vocabulary of the statements *)
(* ===================================================================== *)

(** The kinds the dispatcher has a case for. *)
Definition known_kinds : list string :=
  ["meeting_started"; "meeting_ended"; "transcript_update";
   "meetings_update"; "pong"].

Definition is_known (type : jsval) : bool :=
  existsb (fun k => JS.strict_equal type (JStr k)) known_kinds.

(** The two operations on the registry. *)
Inductive operation : Type :=
| Upsert (meeting : jsval)
| Remove (meetingId : jsval).

Definition perform (o : operation) : js unit :=
  match o with
  | Upsert meeting => addActiveMeeting meeting
  | Remove meetingId => removeActiveMeeting meetingId
  end.

Definition perform_all (st : page) (ops : list operation) : page :=
  fold_left (fun st o => snd (perform o st)) ops st.

(** Entries at different places have different keys. *)
Definition distinct_keys (m : JSMap.t) : Prop :=
  forall i j e1 e2,
    nth_error m i = Some e1 -> nth_error m j = Some e2 ->
    JS.same_value_zero (fst e1) (fst e2) = true -> i = j.

(** The registry the specification expects after [replaceAll(M)]: the
    meetings of [M] keyed by [meeting_id], the last one winning. *)
Definition spec_replaceAll (M : list jsval) : JSMap.t :=
  fold_left
    (fun m meeting =>
       match JS.get meeting "meeting_id" with
       | Normal id => JSMap.set id meeting m
       | Throw _ => m
       end) M [].

(** A computation that leaves a part of the page as it was, also when it
    throws. *)
Definition keeps {A B} (f : page -> B) (c : js A) : Prop :=
  forall st, f (snd (c st)) = f st.

(** A computation that keeps a property of the page, also when it
    throws. *)
Definition preserves {A} (P : page -> Prop) (c : js A) : Prop :=
  forall st, P st -> P (snd (c st)).

(** [f] does not look at what [set] writes. *)
Definition ignores {B X} (f : page -> B) (set : X -> page -> page) : Prop :=
  forall x st, f (set x st) = f st.

(** The registry has no two entries with the same key. *)
Definition registry_ok (st : page) : Prop :=
  JSMap.unique_keys (activeMeetings st) = true.

(** What holds of the sessions and timers throughout a run: one session
    is live or one reconnection is pending, never both; the pending
    timeouts are reconnections after 3000 ms; the one interval is the
    heartbeat every 30000 ms. *)
Definition session_ok (st : page) : Prop :=
  (live_sessions st + List.length (timeouts st) = 1)%nat
  /\ Forall (fun x => x = (3000%Z, ConnectWebSocket)) (timeouts st)
  /\ intervals st = [(30000%Z, Heartbeat)].

(** The number a run of decimal digits denotes, read from the left. *)
Fixpoint uint_value (acc : Z) (u : Decimal.uint) : Z :=
  match u with
  | Decimal.Nil => acc
  | Decimal.D0 l => uint_value (acc * 10 + 0) l
  | Decimal.D1 l => uint_value (acc * 10 + 1) l
  | Decimal.D2 l => uint_value (acc * 10 + 2) l
  | Decimal.D3 l => uint_value (acc * 10 + 3) l
  | Decimal.D4 l => uint_value (acc * 10 + 4) l
  | Decimal.D5 l => uint_value (acc * 10 + 5) l
  | Decimal.D6 l => uint_value (acc * 10 + 6) l
  | Decimal.D7 l => uint_value (acc * 10 + 7) l
  | Decimal.D8 l => uint_value (acc * 10 + 8) l
  | Decimal.D9 l => uint_value (acc * 10 + 9) l
  end.

(** The object [{type: 'ping', timestamp: t}], allocated at [ref]. *)
Definition ping (ref : nat) (t : Z) : jsval :=
  JObj ref [("type", JStr "ping"); ("timestamp", JNum (inject_Z t))].

(** The connection side of the page. *)
Definition connection (st : page)
  : option nat * list socket * list (Z * callback) * list (Z * callback)
    * list (nat * string) :=
  (websocketConnection st, sockets st, timeouts st, intervals st, sent st).

(** Whether the close event of socket [i] can still fire. *)
Definition can_close (i : nat) (st : page) : bool :=
  match ready i st with
  | Some CONNECTING | Some OPEN | Some CLOSING => true
  | _ => false
  end.

(** Whether the heartbeat finds an open connection, and which. *)
Definition open_connection (st : page) : option nat :=
  match websocketConnection st with
  | Some i =>
      match ready i st with
      | Some OPEN => Some i
      | _ => None
      end
  | None => None
  end.

(* --------------------------------------------------------------------- *)
(** *** States and messages of the examples *)
(* --------------------------------------------------------------------- *)

Definition example_loaded : page := loaded "https:" "dashboard.example".

(** The session is open. *)
Definition example_open : page := run example_loaded [(5%Z, SocketOpen 0)].

Definition example_meeting (id title : string) (ref : nat) : jsval :=
  JObj ref
    [("meeting_id", JStr id); ("title", JStr title);
     ("platform", JStr "zoom"); ("start_time", JStr "2024-01-01T09:00:00Z")].

(** The session is open and meeting m3 is in the registry. *)
Definition example_m3 : page :=
  snd (addActiveMeeting (example_meeting "m3" "Retro" 7) example_open).

(** A meetings_update carrying m1 and m2, in the place the dispatcher
    reads them from. *)
Definition example_update : jsval :=
  JObj 10
    [("type", JStr "meetings_update");
     ("data",
      JObj 11
        [("meetings",
          JArr 12
            [example_meeting "m1" "Standup" 13;
             example_meeting "m2" "Planning" 14])])].

Definition example_unknown : jsval :=
  JObj 20 [("type", JStr "meeting_paused"); ("meeting_id", JStr "m3")].

(** A meeting_ended without its [meeting]. *)
Definition example_ended : jsval :=
  JObj 30 [("type", JStr "meeting_ended"); ("meeting_id", JStr "m3")].

(** The rows [example_update] puts in the history table. *)
Definition example_rows : list row :=
  [ {| row_title := JStr "Standup"; row_platform := JStr "zoom";
       row_start := Some (JStr "2024-01-01T09:00:00Z");
       row_duration := None; row_status := JUndefined;
       row_id := JStr "m1" |};
    {| row_title := JStr "Planning"; row_platform := JStr "zoom";
       row_start := Some (JStr "2024-01-01T09:00:00Z");
       row_duration := None; row_status := JUndefined;
       row_id := JStr "m2" |} ].


(** The two messages of the specification's first scenario, as they
    arrive. *)
Definition example_started_frame : frame :=
  TextFrame
    (JSON.dq
       ("{'type':'meeting_started','meeting':{'meeting_id':'m1',"
          ++ "'title':'Standup','platform':'zoom',"
          ++ "'start_time':'2024-01-01T09:00:00Z'}}")).

Definition example_ended_frame : frame :=
  TextFrame
    (JSON.dq
       ("{'type':'meeting_ended','meeting_id':'m1',"
          ++ "'meeting':{'meeting_id':'m1','title':'Standup'}}")).

Definition example_update_element (n : Z) : update :=
  {| className := "alert alert-info alert-dismissible fade show mb-2";
     timestamp := n; message := [Lit "Meeting started: "; Sub (JStr "x")];
     nested := 0 |}.

(** A page whose feed is full. *)
Definition example_full_feed : page :=
  set_live_updates
    (fun _ => map example_update_element [10; 9; 8; 7; 6; 5; 4; 3; 2; 1]%Z)
    example_open.

(* ===================================================================== *)
(** ** Vocabulary of the further statements *)
(* ===================================================================== *)

(** [m.get(k)]: the value of the entry whose key is [k]. *)
Fixpoint Map_get (k : jsval) (m : JSMap.t) : option jsval :=
  match m with
  | [] => None
  | (k', v) :: r => if JS.same_value_zero k' k then Some v else Map_get k r
  end.

(** What the active-meetings container shows for a registry whose cards
    are [html]. *)
Definition shown (m : JSMap.t) (html : list card) : view :=
  if (JSMap.size m =? 0)%nat then NoActiveMeetings else Cards html.

(** No string inside the value holds the character [<]: whatever part
    of it is written into markup is text there. *)
Fixpoint plain_value (v : jsval) : bool :=
  match v with
  | JStr s => HTML.no_markup s
  | JArr _ elems =>
      (fix all (l : list jsval) : bool :=
         match l with
         | [] => true
         | x :: r => plain_value x && all r
         end) elems
  | JObj _ props =>
      (fix all (l : list (string * jsval)) : bool :=
         match l with
         | [] => true
         | (_, x) :: r => plain_value x && all r
         end) props
  | _ => true
  end.

Definition plain_piece (p : piece) : bool :=
  match p with
  | Lit s => HTML.no_markup s
  | Sub v => plain_value v
  | Substring s _ _ => HTML.no_markup s
  end.

(** A message without the character [<]. *)
Definition plain (line : text) : bool := forallb plain_piece line.

(** No line of the feed has an element of class [alert] inside it. *)
Definition plain_feed (l : list update) : Prop :=
  Forall (fun u => nested u = 0%nat) l.

(** The lines of the feed hold no element of class [alert], and there is
    room for what [addLiveUpdate] keeps. *)
Definition feed_ok (st : page) : Prop :=
  plain_feed (live_updates st) /\ (List.length (live_updates st) <= 10)%nat.




(** The address [connectWebSocket] builds for a page. *)
Definition dashboard_url (protocol host : string) : string :=
  (if String.eqb protocol "https:" then "wss:" else "ws:")
    ++ "//" ++ host ++ "/ws/dashboard".

(** Every session of the page was opened at the page's address. *)
Definition urls_ok (protocol host : string) (st : page) : Prop :=
  location_protocol st = protocol /\ location_host st = host
  /\ Forall (fun s => url s = dashboard_url protocol host) (sockets st).

Definition is_message (e : event) : bool :=
  match e with
  | SocketMessage _ _ => true
  | _ => false
  end.

(** The line the console gets when the history cannot be loaded. *)
(** No task of the list is an inbound message. *)
Definition no_message (tasks : list (Z * event)) : bool :=
  forallb (fun task => negb (is_message (snd task))) tasks.

Definition history_error (e : error) : entry :=
  Console ErrorLevel "Error loading meeting history:" (Exception e).

(** A meeting_started without its [meeting], a transcript_update, a pong
    and a transcript_update whose text is a number. *)
Definition example_started_bare : jsval :=
  JObj 40 [("type", JStr "meeting_started")].

Definition example_started : jsval :=
  JObj 41
    [("type", JStr "meeting_started");
     ("meeting", example_meeting "m4" "Review" 42)].

Definition example_transcript : jsval :=
  JObj 50 [("type", JStr "transcript_update"); ("text", JStr "hello")].

Definition example_transcript_bad : jsval :=
  JObj 51 [("type", JStr "transcript_update"); ("text", JNum 5)].

Definition example_pong : jsval := JObj 60 [("type", JStr "pong")].

(** A meeting whose title cannot be turned into a string. *)
Definition example_poisoned : jsval :=
  JObj 70
    [("meeting_id", JStr "m5");
     ("title", JObj 71 [("toString", JNull)])].

(** A transcript_update whose text holds an element of class alert, and
    that message arriving [n] times on the open session. *)
Definition example_markup_frame : frame :=
  TextFrame
    (JSON.dq
       "{'type':'transcript_update','text':'<div class=alert>x</div>'}").

Definition example_markup_tasks (n : nat) : list (Z * event) :=
  map (fun k => (Z.of_nat k, SocketMessage 0 example_markup_frame))
    (seq 6 n).


(** The session closes, the timeout fires, the new session opens. *)
Definition example_reconnection : list (Z * event) :=
  [(9%Z, SocketClose 0); (3009%Z, TimeoutFires 0); (3015%Z, SocketOpen 1)].

(** The registry holds that meeting: its card cannot be drawn. *)
Definition example_stuck : page :=
  snd (addActiveMeeting example_poisoned example_open).

(** A meeting_ended with its [meeting]. *)
Definition example_ended_full : jsval :=
  JObj 31
    [("type", JStr "meeting_ended"); ("meeting_id", JStr "m3");
     ("meeting", example_meeting "m3" "Retro" 32)].

(** The session opens, closes, and the reconnection takes place. *)
Definition example_reconnected : list (Z * event) :=
  [(5%Z, SocketOpen 0); (9%Z, SocketClose 0); (3009%Z, TimeoutFires 0)].

(* ===================================================================== *)
(** ** Values and the Map *)
(* ===================================================================== *)

Lemma strict_equal_refl v : JS.strict_equal v v = true.
Proof.
  destruct v; simpl; auto using Bool.eqb_reflx, String.eqb_refl, Nat.eqb_refl.
  apply Qeq_bool_iff. reflexivity.
Qed.

Lemma strict_equal_sym a b : JS.strict_equal a b = JS.strict_equal b a.
Proof.
  destruct a, b; simpl; auto using String.eqb_sym, Nat.eqb_sym.
  - destruct b, b0; reflexivity.
  - destruct (Qeq_bool q q0) eqn:E, (Qeq_bool q0 q) eqn:F; auto.
    + apply Qeq_bool_iff in E. symmetry in E. apply Qeq_bool_iff in E.
      congruence.
    + apply Qeq_bool_iff in F. symmetry in F. apply Qeq_bool_iff in F.
      congruence.
Qed.

Lemma strict_equal_trans a b c :
  JS.strict_equal a b = true -> JS.strict_equal b c = true ->
  JS.strict_equal a c = true.
Proof.
  destruct a, b; simpl; try discriminate; destruct c; simpl;
    try discriminate; auto.
  - destruct b, b0, b1; auto.
  - intros H1 H2. apply Qeq_bool_iff in H1, H2. apply Qeq_bool_iff.
    rewrite H1. exact H2.
  - intros H1 H2. apply String.eqb_eq in H1, H2. subst. apply String.eqb_refl.
  - intros H1 H2. apply Nat.eqb_eq in H1, H2. subst. apply Nat.eqb_refl.
  - intros H1 H2. apply Nat.eqb_eq in H1, H2. subst. apply Nat.eqb_refl.
Qed.

(** Equal keys are interchangeable on the right of the comparison. *)
Lemma same_value_zero_right a b c :
  JS.same_value_zero a b = true ->
  JS.same_value_zero c a = JS.same_value_zero c b.
Proof.
  unfold JS.same_value_zero. intros H.
  destruct (JS.strict_equal c a) eqn:E, (JS.strict_equal c b) eqn:F; auto.
  - rewrite (strict_equal_trans _ _ _ E H) in F. discriminate.
  - rewrite strict_equal_sym in H.
    rewrite (strict_equal_trans _ _ _ F H) in E. discriminate.
Qed.

Lemma same_value_zero_left a b c :
  JS.same_value_zero a b = true ->
  JS.same_value_zero a c = JS.same_value_zero b c.
Proof.
  unfold JS.same_value_zero. intros H.
  rewrite (strict_equal_sym a c), (strict_equal_sym b c).
  apply same_value_zero_right. exact H.
Qed.

Lemma has_cons x k v m :
  JSMap.has x ((k, v) :: m) = JS.same_value_zero k x || JSMap.has x m.
Proof. reflexivity. Qed.

Lemma has_set x k v m :
  JSMap.has x (JSMap.set k v m)
  = JSMap.has x m || JS.same_value_zero k x.
Proof.
  induction m as [|[k' v'] m IH]; cbn [JSMap.set].
  - rewrite has_cons. cbn. rewrite orb_false_r. reflexivity.
  - destruct (JS.same_value_zero k' k) eqn:E; rewrite !has_cons.
    + rewrite <- (same_value_zero_left k' k x E).
      destruct (JS.same_value_zero k' x), (JSMap.has x m); reflexivity.
    + rewrite IH. rewrite orb_assoc. reflexivity.
Qed.

Lemma has_delete_false x k m :
  JSMap.has x m = false -> JSMap.has x (JSMap.delete k m) = false.
Proof.
  induction m as [|[k' v'] m IH]; cbn [JSMap.delete]; auto.
  rewrite has_cons. intros H. apply orb_false_iff in H. destruct H as [H1 H2].
  destruct (JS.same_value_zero k' k); auto.
  rewrite has_cons, H1. simpl. auto.
Qed.

Lemma unique_cons k v m :
  JSMap.unique_keys ((k, v) :: m)
  = negb (JSMap.has k m) && JSMap.unique_keys m.
Proof. reflexivity. Qed.

Lemma unique_set k v m :
  JSMap.unique_keys m = true -> JSMap.unique_keys (JSMap.set k v m) = true.
Proof.
  induction m as [|[k' v'] m IH]; cbn [JSMap.set]; auto.
  rewrite unique_cons. intros H. apply andb_true_iff in H.
  destruct H as [H1 H2].
  destruct (JS.same_value_zero k' k) eqn:E; rewrite unique_cons.
  - rewrite H1, H2. reflexivity.
  - rewrite has_set, IH by assumption.
    apply negb_true_iff in H1. rewrite H1. simpl.
    unfold JS.same_value_zero in *. rewrite strict_equal_sym, E. reflexivity.
Qed.

Lemma unique_delete k m :
  JSMap.unique_keys m = true -> JSMap.unique_keys (JSMap.delete k m) = true.
Proof.
  induction m as [|[k' v'] m IH]; cbn [JSMap.delete]; auto.
  rewrite unique_cons. intros H. apply andb_true_iff in H.
  destruct H as [H1 H2].
  destruct (JS.same_value_zero k' k); auto.
  rewrite unique_cons, IH by assumption. apply negb_true_iff in H1.
  rewrite has_delete_false by assumption. reflexivity.
Qed.

Lemma has_nth k m :
  JSMap.has k m = true <->
  exists j e, nth_error m j = Some e /\ JS.same_value_zero (fst e) k = true.
Proof.
  induction m as [|e m IH]; simpl.
  - split; [discriminate|]. intros (j & e & H & _). destruct j; discriminate.
  - rewrite orb_true_iff, IH. split.
    + intros [H | (j & e' & H1 & H2)].
      * exists 0%nat, e. auto.
      * exists (S j), e'. auto.
    + intros (j & e' & H1 & H2). destruct j; simpl in H1.
      * left. congruence.
      * right. eauto.
Qed.

(** The boolean check decides the property. *)
Lemma unique_keys_distinct m :
  JSMap.unique_keys m = true <-> distinct_keys m.
Proof.
  induction m as [|[k v] m IH]; simpl.
  - split; auto. intros _ i j e1 e2 H. destruct i; discriminate.
  - rewrite andb_true_iff, negb_true_iff, IH. split.
    + intros [H1 H2] i j e1 e2 Hi Hj E.
      destruct i, j; simpl in Hi, Hj; auto.
      * injection Hi as <-. simpl in E.
        assert (JSMap.has k m = true); [|congruence].
        apply has_nth. exists j, e2. split; auto.
        unfold JS.same_value_zero in *. rewrite strict_equal_sym. exact E.
      * injection Hj as <-. simpl in E.
        assert (JSMap.has k m = true); [|congruence].
        apply has_nth. eauto.
      * f_equal. eapply H2; eauto.
    + intros H. split.
      * destruct (JSMap.has k m) eqn:E; auto.
        apply has_nth in E. destruct E as (j & e & H1 & H2).
        specialize (H (S j) 0%nat e (k, v) H1 eq_refl H2). discriminate.
      * intros i j e1 e2 Hi Hj E.
        specialize (H (S i) (S j) e1 e2 Hi Hj E). congruence.
Qed.

Lemma set_set k v m : JSMap.set k v (JSMap.set k v m) = JSMap.set k v m.
Proof.
  induction m as [|[k' v'] m IH]; simpl.
  - unfold JS.same_value_zero. rewrite strict_equal_refl. reflexivity.
  - destruct (JS.same_value_zero k' k) eqn:E; simpl; rewrite E.
    + reflexivity.
    + rewrite IH. reflexivity.
Qed.

Lemma set_not_empty k v m : JSMap.size (JSMap.set k v m) <> 0%nat.
Proof.
  destruct m as [|[k' v'] m]; simpl; [discriminate|].
  destruct (JS.same_value_zero k' k); discriminate.
Qed.

(* ===================================================================== *)
(** ** The decoder never runs out of fuel *)
(* ===================================================================== *)

Lemma skip_ws_length s :
  (String.length (JSON.skip_ws s) <= String.length s)%nat.
Proof.
  induction s as [|c s IH]; simpl; auto.
  destruct (JSON.is_ws c); simpl; lia.
Qed.

Lemma starts_length c s r :
  JSON.starts c s = Some r -> String.length s = S (String.length r).
Proof.
  destruct s as [|x s]; simpl; [discriminate|].
  destruct (Ascii.eqb x c); [|discriminate]. intros H. congruence.
Qed.

Lemma read_string_length n : forall s l r,
  (String.length s < n)%nat ->
  JSON.read_string s = Some (l, r) ->
  (String.length r < String.length s)%nat.
Proof.
  induction n as [|n IH]; intros s l r Hn H; [lia|].
  destruct s as [|c s]; [discriminate|]. cbn [JSON.read_string] in H.
  cbn [String.length] in *.
  destruct (Ascii.eqb c JSON.quote).
  { injection H as _ <-. lia. }
  destruct (Ascii.eqb c JSON.backslash).
  - destruct s as [|e s1]; [discriminate|]. cbn [String.length] in *.
    destruct (Ascii.eqb e "u").
    + destruct s1 as [|h1 [|h2 [|h3 [|h4 s2]]]]; try discriminate.
      cbn [String.length] in *.
      destruct (JSON.hex4 h1 h2 h3 h4); [|discriminate].
      destruct (JSON.read_string s2) as [[l' r']|] eqn:E; [|discriminate].
      injection H as _ <-. apply IH in E; lia.
    + destruct (JSON.escape e); [|discriminate].
      destruct (JSON.read_string s1) as [[l' r']|] eqn:E; [|discriminate].
      injection H as _ <-. apply IH in E; lia.
  - destruct (nat_of_ascii c <? 32)%nat; [discriminate|].
    destruct (JSON.read_string s) as [[l' r']|] eqn:E; [|discriminate].
    injection H as _ <-. apply IH in E; lia.
Qed.

Lemma read_digits_length s : forall acc n a k r,
  JSON.read_digits s acc n = (a, k, r) ->
  (String.length r <= String.length s)%nat.
Proof.
  induction s as [|c s IH]; intros acc n a k r H; cbn [JSON.read_digits] in H.
  - injection H as _ _ <-. auto.
  - destruct (JSON.digit c).
    + apply IH in H. simpl. lia.
    + injection H as _ _ <-. auto.
Qed.

Lemma strip_length p : forall s r,
  JSON.strip p s = Some r -> (String.length r <= String.length s)%nat.
Proof.
  induction p as [|a p IH]; intros s r H; simpl in H.
  - injection H as <-. auto.
  - destruct s as [|b s]; [discriminate|].
    destruct (Ascii.eqb a b); [|discriminate]. apply IH in H. simpl. lia.
Qed.

Ltac lengths :=
  repeat match goal with
         | H : JSON.starts _ _ = Some _ |- _ =>
             apply starts_length in H
         | H : JSON.read_digits _ _ _ = _ |- _ =>
             apply read_digits_length in H
         | H : JSON.strip _ _ = Some _ |- _ => apply strip_length in H
         | H : JSON.read_string _ = Some _ |- _ =>
             apply (read_string_length _ _ _ _ (Nat.lt_succ_diag_r _)) in H
         end.

Lemma read_number_length s q r :
  JSON.read_number s = Some (q, r) ->
  (String.length r < String.length s)%nat.
Proof.
  unfold JSON.read_number. intros H.
  repeat match type of H with
         | context [match ?x with _ => _ end] =>
             match x with
             | context [match _ with _ => _ end] => fail 1
             | _ => destruct x eqn:?; try discriminate
             end
         | context [if ?x then _ else _] => destruct x eqn:?; try discriminate
         end;
    repeat match goal with
           | K : (_, _) = (_, _) |- _ => injection K as ? ?; subst
           | K : Some _ = Some _ |- _ => injection K as ?; subst
           end;
    lengths; cbn [String.length] in *; lia.
Qed.

(** A successful call has read something, and succeeds the same with any
    fuel that is at least the number of characters it read. *)
Lemma parse_fuel fuel :
  (forall next s v next' r,
      JSON.parse_value fuel next s = Some (v, next', r) ->
      (String.length r < String.length s)%nat
      /\ forall fuel',
          (String.length s - String.length r <= fuel')%nat ->
          JSON.parse_value fuel' next s = Some (v, next', r))
  /\ (forall next s acc l next' r,
         JSON.parse_elements fuel next s acc = Some (l, next', r) ->
         (String.length r < String.length s)%nat
         /\ forall fuel',
             (String.length s - String.length r <= fuel')%nat ->
             JSON.parse_elements fuel' next s acc = Some (l, next', r))
  /\ (forall next s acc l next' r,
         JSON.parse_members fuel next s acc = Some (l, next', r) ->
         (String.length r < String.length s)%nat
         /\ forall fuel',
             (String.length s - String.length r <= fuel')%nat ->
             JSON.parse_members fuel' next s acc = Some (l, next', r)).
Proof.
  induction fuel as [|fuel (IHv & IHe & IHm)].
  { repeat split; discriminate. }
  split; [|split].
  - intros next s v next' r H. cbn [JSON.parse_value] in H.
    pose proof (skip_ws_length s) as W0.
    destruct (JSON.skip_ws s) as [|c r0] eqn:W; [discriminate|].
    cbn [String.length] in W0.
    destruct (Ascii.eqb c "{") eqn:E1.
    { pose proof (skip_ws_length r0) as W1.
      destruct (JSON.starts "}" (JSON.skip_ws r0)) as [r1|] eqn:S1.
      - injection H as <- <- <-. pose proof (starts_length _ _ _ S1).
        split; [lia|]. intros [|f] Hf; [lia|].
        cbn [JSON.parse_value]. rewrite W, E1, S1. reflexivity.
      - destruct (JSON.parse_members fuel (S next) r0 [])
          as [[[props n1] r1]|] eqn:M; [|discriminate].
        injection H as <- <- <-. apply IHm in M. destruct M as [Lm Fm].
        split; [lia|]. intros [|f] Hf; [lia|].
        cbn [JSON.parse_value]. rewrite W, E1, S1, Fm by lia. reflexivity. }
    destruct (Ascii.eqb c "[") eqn:E2.
    { pose proof (skip_ws_length r0) as W1.
      destruct (JSON.starts "]" (JSON.skip_ws r0)) as [r1|] eqn:S1.
      - injection H as <- <- <-. pose proof (starts_length _ _ _ S1).
        split; [lia|]. intros [|f] Hf; [lia|].
        cbn [JSON.parse_value]. rewrite W, E1, E2, S1. reflexivity.
      - destruct (JSON.parse_elements fuel (S next) r0 [])
          as [[[elems n1] r1]|] eqn:M; [|discriminate].
        injection H as <- <- <-. apply IHe in M. destruct M as [Lm Fm].
        split; [lia|]. intros [|f] Hf; [lia|].
        cbn [JSON.parse_value]. rewrite W, E1, E2, S1, Fm by lia.
        reflexivity. }
    assert (G : forall res : option (jsval * nat * string),
               res = Some (v, next', r) ->
               (String.length r <= String.length r0)%nat ->
               (forall f, JSON.parse_value (S f) next s = res) ->
               (String.length r < String.length s)%nat
               /\ forall fuel',
                   (String.length s - String.length r <= fuel')%nat ->
                   JSON.parse_value fuel' next s = Some (v, next', r)).
    { intros res Hres Hl Hf. split; [lia|]. intros [|f] Hf'; [lia|].
      rewrite Hf. exact Hres. }
    destruct (Ascii.eqb c JSON.quote) eqn:E3.
    { destruct (JSON.read_string r0) as [[l r1]|] eqn:R; [|discriminate].
      eapply G; [exact H| |].
      - injection H as _ _ <-. lengths. lia.
      - intros f. cbn [JSON.parse_value]. rewrite W, E1, E2, E3, R.
        reflexivity. }
    destruct (Ascii.eqb c "t") eqn:E4.
    { destruct (JSON.strip "rue" r0) as [r1|] eqn:R; [|discriminate].
      eapply G; [exact H| |].
      - injection H as _ _ <-. lengths. lia.
      - intros f. cbn [JSON.parse_value]. rewrite W, E1, E2, E3, E4, R.
        reflexivity. }
    destruct (Ascii.eqb c "f") eqn:E5.
    { destruct (JSON.strip "alse" r0) as [r1|] eqn:R; [|discriminate].
      eapply G; [exact H| |].
      - injection H as _ _ <-. lengths. lia.
      - intros f. cbn [JSON.parse_value]. rewrite W, E1, E2, E3, E4, E5, R.
        reflexivity. }
    destruct (Ascii.eqb c "n") eqn:E6.
    { destruct (JSON.strip "ull" r0) as [r1|] eqn:R; [|discriminate].
      eapply G; [exact H| |].
      - injection H as _ _ <-. lengths. lia.
      - intros f. cbn [JSON.parse_value].
        rewrite W, E1, E2, E3, E4, E5, E6, R. reflexivity. }
    destruct (JSON.read_number (String c r0)) as [[q r1]|] eqn:R;
      [|discriminate].
    eapply G; [exact H| |].
    + injection H as _ _ <-. apply read_number_length in R.
      cbn [String.length] in R. lia.
    + intros f. cbn [JSON.parse_value].
      rewrite W, E1, E2, E3, E4, E5, E6, R. reflexivity.
  - intros next s acc l next' r H. cbn [JSON.parse_elements] in H.
    destruct (JSON.parse_value fuel next s) as [[[v n1] r1]|] eqn:V;
      [|discriminate].
    apply IHv in V. destruct V as [Lv Fv].
    pose proof (skip_ws_length r1) as W1.
    destruct (JSON.starts "," (JSON.skip_ws r1)) as [r2|] eqn:S1.
    + apply IHe in H. destruct H as [Le Fe].
      pose proof (starts_length _ _ _ S1).
      split; [lia|]. intros [|f] Hf; [lia|].
      cbn [JSON.parse_elements]. rewrite Fv, S1, Fe by lia. reflexivity.
    + destruct (JSON.starts "]" (JSON.skip_ws r1)) as [r2|] eqn:S2;
        [|discriminate].
      injection H as <- <- <-. pose proof (starts_length _ _ _ S2).
      split; [lia|]. intros [|f] Hf; [lia|].
      cbn [JSON.parse_elements]. rewrite Fv, S1, S2 by lia. reflexivity.
  - intros next s acc l next' r H. cbn [JSON.parse_members] in H.
    pose proof (skip_ws_length s) as W0.
    destruct (JSON.starts JSON.quote (JSON.skip_ws s)) as [r0|] eqn:S0;
      [|discriminate].
    destruct (JSON.read_string r0) as [[key r1]|] eqn:R; [|discriminate].
    pose proof (skip_ws_length r1) as W1.
    destruct (JSON.starts ":" (JSON.skip_ws r1)) as [r2|] eqn:S1;
      [|discriminate].
    destruct (JSON.parse_value fuel next r2) as [[[v n1] r3]|] eqn:V;
      [|discriminate].
    apply IHv in V. destruct V as [Lv Fv].
    pose proof (skip_ws_length r3) as W3.
    pose proof (starts_length _ _ _ S0).
    pose proof (starts_length _ _ _ S1).
    pose proof (read_string_length _ _ _ _ (Nat.lt_succ_diag_r _) R).
    cbv zeta in H.
    destruct (JSON.starts "," (JSON.skip_ws r3)) as [r4|] eqn:S3.
    + apply IHm in H. destruct H as [Lm Fm].
      pose proof (starts_length _ _ _ S3).
      split; [lia|]. intros [|f] Hf; [lia|].
      cbn [JSON.parse_members]. rewrite S0, R, S1, Fv by lia.
      cbv zeta. rewrite S3, Fm by lia. reflexivity.
    + destruct (JSON.starts "}" (JSON.skip_ws r3)) as [r4|] eqn:S4;
        [|discriminate].
      injection H as <- <- <-. pose proof (starts_length _ _ _ S4).
      split; [lia|]. intros [|f] Hf; [lia|].
      cbn [JSON.parse_members]. rewrite S0, R, S1, Fv by lia.
      cbv zeta. rewrite S3, S4. reflexivity.
Qed.

(** What any amount of fuel decodes, the fuel [JSON.parse] takes
    decodes. *)
Lemma parse_value_enough fuel next s res :
  JSON.parse_value fuel next s = Some res ->
  JSON.parse_value (S (String.length s)) next s = Some res.
Proof.
  destruct res as [[v next'] r]. intros H.
  apply (proj1 (parse_fuel fuel)) in H. destruct H as [_ H].
  apply H. lia.
Qed.

(** A text that [JSON.parse] rejects is rejected whatever the fuel: no
    value is read, or something other than white space follows it. *)
Lemma parse_rejects next text :
  JSON.parse next text = None ->
  forall fuel,
    match JSON.parse_value fuel next text with
    | Some (_, _, r) => JSON.skip_ws r <> ""
    | None => True
    end.
Proof.
  unfold JSON.parse. intros H fuel.
  destruct (JSON.parse_value fuel next text) as [[[v n] r]|] eqn:E; auto.
  rewrite (parse_value_enough _ _ _ _ E) in H.
  destruct (JSON.skip_ws r); discriminate.
Qed.

(* ===================================================================== *)
(** ** Framing: what a handler leaves alone *)
(* ===================================================================== *)

Section Keeps.

Context {B : Type} (f : page -> B).

Lemma keeps_ret {A} (a : A) : keeps f (ret a).
Proof. intros st. reflexivity. Qed.

Lemma keeps_throw {A} e : keeps f (@throw A e).
Proof. intros st. reflexivity. Qed.

Lemma keeps_lift {A} (c : completion A) : keeps f (lift c).
Proof. intros st. reflexivity. Qed.

Lemma keeps_gets {A} (g : page -> A) : keeps f (gets g).
Proof. intros st. reflexivity. Qed.

Lemma keeps_modify {X} (set : X -> page -> page) x :
  ignores f set -> keeps f (modify (set x)).
Proof. intros H st. apply H. Qed.

Lemma keeps_bind {A A'} (c : js A) (k : A -> js A') :
  keeps f c -> (forall a, keeps f (k a)) -> keeps f (bind c k).
Proof.
  intros H1 H2 st. unfold bind. specialize (H1 st).
  destruct (c st) as [[a|e] st']; simpl in *.
  - rewrite H2. exact H1.
  - exact H1.
Qed.

Lemma keeps_try_catch {A} (c : js A) h :
  keeps f c -> (forall e, keeps f (h e)) -> keeps f (try_catch c h).
Proof.
  intros H1 H2 st. unfold try_catch. specialize (H1 st).
  destruct (c st) as [[a|e] st']; simpl in *.
  - exact H1.
  - rewrite H2. exact H1.
Qed.

Lemma keeps_run_handler c :
  ignores f set_console -> keeps f c ->
  forall st, f (run_handler c st) = f st.
Proof.
  intros H1 H2 st. unfold run_handler. specialize (H2 st).
  destruct (c st) as [[a|e] st']; simpl in *; auto.
  rewrite H1. exact H2.
Qed.

End Keeps.

Create HintDb keeps.

Ltac keep :=
  repeat first
    [ assumption
    | solve [auto 3 with keeps nocore]
    | apply keeps_ret | apply keeps_throw | apply keeps_lift
    | apply keeps_gets
    | apply keeps_modify; assumption
    | apply keeps_bind; [ | intros ]
    | apply keeps_try_catch; [ | intros ]
    | match goal with
      | |- keeps _ (if ?b then _ else _) => destruct b
      | |- keeps _ (match ?x with _ => _ end) => destruct x
      end ].

Ltac ign := intros ? ?; reflexivity.

(** Reading a field of a page that was just written. *)
Ltac fields :=
  unfold set_activeMeetings, set_websocketConnection, set_sockets,
    set_timeouts, set_live_updates, set_active_meetings,
    set_meeting_history, set_platform_status, set_console, set_sent,
    set_requests, set_now, set_next_ref;
  cbn [activeMeetings websocketConnection sockets timeouts intervals
       live_updates active_meetings meeting_history platform_status console
       sent requests now next_ref location_protocol location_host fst snd].

Section Handlers.

Context {B : Type} (f : page -> B).

Lemma console_log_keeps label d :
  ignores f set_console -> keeps f (console_log label d).
Proof. intros. unfold console_log. keep. Qed.
#[local] Hint Resolve console_log_keeps : keeps.

Lemma console_error_keeps label d :
  ignores f set_console -> keeps f (console_error label d).
Proof. intros. unfold console_error. keep. Qed.
#[local] Hint Resolve console_error_keeps : keeps.

Lemma addLiveUpdate_keeps message type :
  ignores f set_live_updates -> keeps f (addLiveUpdate message type).
Proof. intros. unfold addLiveUpdate. keep. Qed.
#[local] Hint Resolve addLiveUpdate_keeps : keeps.

Lemma updateActiveMeetingsDisplay_keeps :
  ignores f set_active_meetings -> keeps f updateActiveMeetingsDisplay.
Proof. intros. unfold updateActiveMeetingsDisplay. keep. Qed.
#[local] Hint Resolve updateActiveMeetingsDisplay_keeps : keeps.

Lemma addActiveMeeting_keeps meeting :
  ignores f set_activeMeetings -> ignores f set_active_meetings ->
  keeps f (addActiveMeeting meeting).
Proof.
  intros. unfold addActiveMeeting. keep.
Qed.
#[local] Hint Resolve addActiveMeeting_keeps : keeps.

Lemma removeActiveMeeting_keeps meetingId :
  ignores f set_activeMeetings -> ignores f set_active_meetings ->
  keeps f (removeActiveMeeting meetingId).
Proof.
  intros. unfold removeActiveMeeting. keep.
Qed.
#[local] Hint Resolve removeActiveMeeting_keeps : keeps.

Lemma updateMeetingHistory_keeps meetings :
  ignores f set_meeting_history -> keeps f (updateMeetingHistory meetings).
Proof. intros. unfold updateMeetingHistory. keep. Qed.
#[local] Hint Resolve updateMeetingHistory_keeps : keeps.

Lemma loadMeetingHistory_keeps :
  ignores f set_requests -> keeps f loadMeetingHistory.
Proof. intros. unfold loadMeetingHistory. keep. Qed.
#[local] Hint Resolve loadMeetingHistory_keeps : keeps.

Lemma loadMeetingHistory_resume_keeps response :
  ignores f set_meeting_history -> ignores f set_console ->
  keeps f (loadMeetingHistory_resume response).
Proof.
  intros. unfold loadMeetingHistory_resume. keep.
Qed.
#[local] Hint Resolve loadMeetingHistory_resume_keeps : keeps.

Lemma JSON_parse_keeps text :
  ignores f set_next_ref -> keeps f (JSON_parse text).
Proof.
  intros H st. unfold JSON_parse.
  destruct (JSON.parse (next_ref st) text) as [[v n]|]; simpl; auto.
Qed.
#[local] Hint Resolve JSON_parse_keeps : keeps.

Lemma handleWebSocketMessage_keeps data :
  ignores f set_activeMeetings -> ignores f set_active_meetings ->
  ignores f set_live_updates -> ignores f set_meeting_history ->
  ignores f set_requests -> ignores f set_console ->
  keeps f (handleWebSocketMessage data).
Proof.
  intros. unfold handleWebSocketMessage. keep.
Qed.
#[local] Hint Resolve handleWebSocketMessage_keeps : keeps.

Lemma onmessage_keeps frame :
  ignores f set_activeMeetings -> ignores f set_active_meetings ->
  ignores f set_live_updates -> ignores f set_meeting_history ->
  ignores f set_requests -> ignores f set_console ->
  ignores f set_next_ref ->
  keeps f (onmessage frame).
Proof.
  intros. unfold onmessage. keep.
Qed.
#[local] Hint Resolve onmessage_keeps : keeps.

Lemma onopen_keeps :
  ignores f set_live_updates -> ignores f set_console -> keeps f onopen.
Proof.
  intros. unfold onopen. keep.
Qed.
#[local] Hint Resolve onopen_keeps : keeps.

Lemma onerror_keeps :
  ignores f set_live_updates -> ignores f set_console -> keeps f onerror.
Proof.
  intros. unfold onerror. keep.
Qed.
#[local] Hint Resolve onerror_keeps : keeps.

Lemma onclose_keeps :
  ignores f set_live_updates -> ignores f set_console ->
  ignores f set_timeouts -> keeps f onclose.
Proof.
  intros. unfold onclose, setTimeout. keep.
Qed.
#[local] Hint Resolve onclose_keeps : keeps.

Lemma connectWebSocket_keeps :
  ignores f set_sockets -> ignores f set_websocketConnection ->
  keeps f connectWebSocket.
Proof. intros. unfold connectWebSocket, new_WebSocket. keep. Qed.
#[local] Hint Resolve connectWebSocket_keeps : keeps.

Lemma heartbeat_keeps : ignores f set_sent -> keeps f heartbeat.
Proof. intros. unfold heartbeat, send. keep. Qed.
#[local] Hint Resolve heartbeat_keeps : keeps.

Lemma call_keeps g :
  ignores f set_sockets -> ignores f set_websocketConnection ->
  ignores f set_sent -> keeps f (call g).
Proof.
  intros. destruct g; simpl;
    auto using connectWebSocket_keeps, heartbeat_keeps.
Qed.
#[local] Hint Resolve call_keeps : keeps.

End Handlers.

#[global] Hint Resolve console_log_keeps console_error_keeps addLiveUpdate_keeps updateActiveMeetingsDisplay_keeps addActiveMeeting_keeps removeActiveMeeting_keeps updateMeetingHistory_keeps loadMeetingHistory_keeps loadMeetingHistory_resume_keeps JSON_parse_keeps handleWebSocketMessage_keeps onmessage_keeps onopen_keeps onerror_keeps onclose_keeps connectWebSocket_keeps heartbeat_keeps call_keeps : keeps.

#[global] Hint Extern 1 (ignores _ _) => intros ? ?; reflexivity : keeps.

Section Preserves.

Context (P : page -> Prop).

Lemma preserves_keeps {A B} (f : page -> B) (Q : B -> Prop) (c : js A) :
  keeps f c -> preserves (fun st => Q (f st)) c.
Proof. intros H st HQ. rewrite H. exact HQ. Qed.

Lemma preserves_lift {A} (c : completion A) : preserves P (lift c).
Proof. intros st H. exact H. Qed.

Lemma preserves_modify g :
  (forall st, P st -> P (g st)) -> preserves P (modify g).
Proof. intros H st. apply H. Qed.

Lemma preserves_bind {A A'} (c : js A) (k : A -> js A') :
  preserves P c -> (forall a, preserves P (k a)) -> preserves P (bind c k).
Proof.
  intros H1 H2 st H. unfold bind. specialize (H1 st H).
  destruct (c st) as [[a|e] st']; simpl in *.
  - apply H2. exact H1.
  - exact H1.
Qed.

Lemma preserves_run_handler c :
  (forall g st, P st -> P (set_console g st)) ->
  preserves P c -> forall st, P st -> P (run_handler c st).
Proof.
  intros H1 H2 st H. unfold run_handler. specialize (H2 st H).
  destruct (c st) as [[a|e] st']; simpl in *; auto.
Qed.

End Preserves.

Lemma keeps_registry_ok {A} (c : js A) :
  keeps activeMeetings c -> preserves registry_ok c.
Proof.
  intros H. apply (preserves_keeps activeMeetings
                     (fun m => JSMap.unique_keys m = true)). exact H.
Qed.

Lemma addActiveMeeting_ok meeting : preserves registry_ok (addActiveMeeting meeting).
Proof.
  unfold addActiveMeeting.
  apply preserves_bind; [apply preserves_lift|]. intros id.
  apply preserves_bind.
  - apply preserves_modify. intros st H. apply unique_set. exact H.
  - intros _. apply keeps_registry_ok. auto with keeps.
Qed.

Lemma removeActiveMeeting_ok meetingId :
  preserves registry_ok (removeActiveMeeting meetingId).
Proof.
  unfold removeActiveMeeting. apply preserves_bind.
  - apply preserves_modify. intros st H. apply unique_delete. exact H.
  - intros _. apply keeps_registry_ok. auto with keeps.
Qed.

Lemma perform_ok o : preserves registry_ok (perform o).
Proof.
  destruct o; simpl; auto using addActiveMeeting_ok, removeActiveMeeting_ok.
Qed.

Lemma handleWebSocketMessage_ok data :
  preserves registry_ok (handleWebSocketMessage data).
Proof.
  unfold handleWebSocketMessage.
  apply preserves_bind; [apply preserves_lift|]. intros type.
  repeat match goal with
         | |- preserves _ (if ?b then _ else _) => destruct b
         end.
  - apply preserves_bind; [apply preserves_lift|]. intros m.
    apply preserves_bind; [apply addActiveMeeting_ok|]. intros _.
    apply keeps_registry_ok. keep.
  - apply preserves_bind; [apply preserves_lift|]. intros m.
    apply preserves_bind; [apply removeActiveMeeting_ok|]. intros _.
    apply keeps_registry_ok. keep.
  - apply keeps_registry_ok. keep.
  - apply keeps_registry_ok. keep.
  - apply keeps_registry_ok. keep.
  - apply keeps_registry_ok. keep.
Qed.

Lemma onmessage_ok frame : preserves registry_ok (onmessage frame).
Proof.
  unfold onmessage. apply preserves_bind.
  - apply keeps_registry_ok. auto with keeps.
  - intros data. apply handleWebSocketMessage_ok.
Qed.

Lemma run_handler_registry_ok c st :
  preserves registry_ok c -> registry_ok st -> registry_ok (run_handler c st).
Proof.
  intros H. apply preserves_run_handler; auto.
Qed.

(** Every task of the event loop keeps the keys of the registry apart. *)
Lemma step_ok st task : registry_ok st -> registry_ok (step st task).
Proof.
  intros H. destruct task as [t e]. unfold step.
  assert (H0 : registry_ok (set_now t st)) by exact H.
  destruct e.
  - destruct (ready i (set_now t st)) as [[]|]; auto.
    apply run_handler_registry_ok; auto.
    apply keeps_registry_ok. auto with keeps.
  - destruct (ready i (set_now t st)) as [[]|]; auto;
      apply run_handler_registry_ok; auto using onmessage_ok.
  - destruct (ready i (set_now t st)) as [[]|]; auto;
      apply run_handler_registry_ok; auto;
      apply keeps_registry_ok; auto with keeps.
  - destruct (ready i (set_now t st)) as [[]|]; auto.
  - destruct (ready i (set_now t st)) as [[]|]; auto;
      apply run_handler_registry_ok; auto;
      apply keeps_registry_ok; auto with keeps.
  - destruct (nth_error (timeouts (set_now t st)) k) as [[d g]|]; auto.
    apply run_handler_registry_ok; auto.
    apply keeps_registry_ok. auto with keeps.
  - destruct (nth_error (intervals (set_now t st)) k) as [[d g]|]; auto.
    apply run_handler_registry_ok; auto.
    apply keeps_registry_ok. auto with keeps.
  - destruct (requests (set_now t st)); auto.
    apply run_handler_registry_ok; auto.
    apply keeps_registry_ok. auto with keeps.
Qed.

Lemma run_ok tasks : forall st, registry_ok st -> registry_ok (run st tasks).
Proof.
  unfold run. induction tasks as [|task tasks IH]; simpl; auto.
  intros st H. apply IH. apply step_ok. exact H.
Qed.

Lemma perform_all_ok ops :
  forall st, registry_ok st -> registry_ok (perform_all st ops).
Proof.
  unfold perform_all. induction ops as [|o ops IH]; simpl; auto.
  intros st H. apply IH. apply perform_ok. exact H.
Qed.

Lemma loaded_registry protocol host : activeMeetings (loaded protocol host) = [].
Proof. reflexivity. Qed.

(** C4.  Whatever upserts and removals are applied to the registry, from
    the empty registry of a fresh page, no two of its entries have the
    same meeting id afterwards; and the same holds after any run of the
    event loop, where meeting_started and meeting_ended messages are what
    upserts and removes. *)
Theorem registry_keys_unique :
  (forall protocol host ops,
      distinct_keys (activeMeetings (perform_all (script protocol host) ops)))
  /\ (forall protocol host tasks,
         distinct_keys (activeMeetings (run (loaded protocol host) tasks))).
Proof.
  split; intros protocol host l; apply unique_keys_distinct.
  - apply perform_all_ok. reflexivity.
  - apply run_ok. reflexivity.
Qed.

(** C5.  Upserting the same meeting a second time changes nothing: the
    second call ends as the first did and leaves the page, and with it
    the registry, as the first call left it. *)
Theorem upsert_idempotent meeting st :
  addActiveMeeting meeting (snd (addActiveMeeting meeting st))
  = addActiveMeeting meeting st
  /\ activeMeetings (snd (addActiveMeeting meeting
                            (snd (addActiveMeeting meeting st))))
     = activeMeetings (snd (addActiveMeeting meeting st)).
Proof.
  assert (H : addActiveMeeting meeting (snd (addActiveMeeting meeting st))
              = addActiveMeeting meeting st).
  { unfold addActiveMeeting, updateActiveMeetingsDisplay, bind, lift, modify,
      gets.
    destruct (JS.get meeting "meeting_id") as [id|e]; [|reflexivity].
    cbn [activeMeetings set_activeMeetings].
    destruct (JSMap.size (JSMap.set id meeting (activeMeetings st)) =? 0)%nat
      eqn:E.
    { apply Nat.eqb_eq in E. apply set_not_empty in E. contradiction. }
    destruct (traverse render_card
                (JSMap.set id meeting (activeMeetings st))) as [html|e] eqn:T;
      fields; rewrite !set_set, E, T; reflexivity. }
  split; [exact H | rewrite H; reflexivity].
Qed.

(** C10.  The feed does not keep to 10 entries when a message carries
    markup.  The message is written into [innerHTML], the elements of
    class [alert] it creates are counted with the lines, and the one
    removed is the last in the document, which need not be a line.  On
    the open page a transcript_update whose text is
    [<div class=alert>x</div>] arrives repeatedly: after the fifth the
    feed holds 10 elements of class [alert] in 5 lines, and the sixth
    call leaves 11; after the fifteenth it holds 10 lines, and the
    sixteenth call leaves 11 lines. *)
Theorem addLiveUpdate_exceeds_ten :
  let fifth := run example_open (example_markup_tasks 5) in
  let fifteenth := run example_open (example_markup_tasks 15) in
  let line :=
    [Lit "Live transcript: "; Substring "<div class=alert>x</div>" 0 50;
     Lit "..."] in
  querySelectorAll_alert (live_updates fifth) = 10%nat
  /\ List.length (live_updates fifth) = 5%nat
  /\ querySelectorAll_alert
       (live_updates (snd (addLiveUpdate line "transcript" fifth)))
     = 11%nat
  /\ querySelectorAll_alert
       (live_updates
          (run fifth [(11%Z, SocketMessage 0 example_markup_frame)]))
     = 11%nat
  /\ List.length (live_updates fifteenth) = 10%nat
  /\ List.length
       (live_updates (snd (addLiveUpdate line "transcript" fifteenth)))
     = 11%nat
  /\ List.length
       (live_updates
          (run fifteenth [(21%Z, SocketMessage 0 example_markup_frame)]))
     = 11%nat.
Proof. vm_compute. repeat split. Qed.

(* ===================================================================== *)
(** ** The dispatcher *)
(* ===================================================================== *)

Lemma strict_equal_string type s :
  JS.strict_equal type (JStr s) = true -> type = JStr s.
Proof.
  destruct type; simpl; try discriminate.
  intros H. apply String.eqb_eq in H. congruence.
Qed.

(** C8.  An event whose type tag is none of the five known kinds is
    logged and dropped: the dispatcher returns normally, the only change
    to the page is the console line naming the tag, and in particular the
    registry is as it was. *)
Theorem unknown_kind_dropped data type st :
  JS.get data "type" = Normal type ->
  is_known type = false ->
  handleWebSocketMessage data st
  = (Normal tt,
     set_console
       (fun l =>
          (l ++ [Console LogLevel "Unknown WebSocket message type:"
                   (Value type)])%list) st)
  /\ activeMeetings (snd (handleWebSocketMessage data st)) = activeMeetings st.
Proof.
  intros Ht Hk.
  assert (H : handleWebSocketMessage data st
              = (Normal tt,
                 set_console
                   (fun l =>
                      (l ++ [Console LogLevel
                               "Unknown WebSocket message type:"
                               (Value type)])%list) st)).
  { unfold is_known, known_kinds in Hk. cbn [existsb] in Hk.
    repeat (apply orb_false_iff in Hk; destruct Hk as [? Hk]).
    unfold handleWebSocketMessage, bind, lift. rewrite Ht.
    repeat match goal with
           | H : JS.strict_equal type _ = false |- _ => rewrite H; clear H
           end.
    reflexivity. }
  split; [exact H | rewrite H; reflexivity].
Qed.

Lemma get_TypeError v name e : JS.get v name = Throw e -> e = TypeError.
Proof.
  destruct v; simpl; try discriminate; try congruence.
  destruct (JS.assoc name props); discriminate.
Qed.

Lemma ToString_TypeError v e : JS.ToString v = Throw e -> e = TypeError.
Proof. unfold JS.ToString. destruct (JS.convertible v); congruence. Qed.

Lemma render_card_TypeError c e : render_card c = Throw e -> e = TypeError.
Proof.
  destruct c as [k v]. unfold render_card, and_then.
  repeat match goal with
         | |- context [match JS.ToString ?x with _ => _ end] =>
             let E := fresh in
             destruct (JS.ToString x) eqn:E;
             [|apply ToString_TypeError in E; congruence]
         | |- context [match JS.get ?x ?n with _ => _ end] =>
             let E := fresh in
             destruct (JS.get x n) eqn:E;
             [|apply get_TypeError in E; congruence]
         end.
  discriminate.
Qed.

Lemma traverse_TypeError {A B} (f : A -> completion B) l e :
  (forall x e, f x = Throw e -> e = TypeError) ->
  traverse f l = Throw e -> e = TypeError.
Proof.
  intros Hf. induction l as [|x l IH]; simpl; [discriminate|].
  unfold and_then at 1. destruct (f x) eqn:E.
  - unfold and_then. destruct (traverse f l); [discriminate|].
    intros H. apply IH. congruence.
  - intros H. apply (Hf x). congruence.
Qed.

(** Re-rendering the cards returns or throws a TypeError. *)
Lemma updateActiveMeetingsDisplay_completion st :
  fst (updateActiveMeetingsDisplay st) = Normal tt
  \/ fst (updateActiveMeetingsDisplay st) = Throw TypeError.
Proof.
  unfold updateActiveMeetingsDisplay, bind, gets, lift, modify.
  destruct (JSMap.size (activeMeetings st) =? 0)%nat; auto.
  destruct (traverse render_card (activeMeetings st)) eqn:E; auto.
  right. apply traverse_TypeError in E; [subst; auto|].
  apply render_card_TypeError.
Qed.

Lemma removeActiveMeeting_registry id st :
  activeMeetings (snd (removeActiveMeeting id st))
  = JSMap.delete id (activeMeetings st).
Proof.
  unfold removeActiveMeeting, bind, modify.
  rewrite (updateActiveMeetingsDisplay_keeps activeMeetings); auto.
  ign.
Qed.

Lemma removeActiveMeeting_completion id st :
  fst (removeActiveMeeting id st) = Normal tt
  \/ fst (removeActiveMeeting id st) = Throw TypeError.
Proof.
  unfold removeActiveMeeting, bind, modify.
  apply updateActiveMeetingsDisplay_completion.
Qed.

(** C9.  A meeting_ended event whose [meeting] is absent or null makes
    the dispatcher throw a TypeError.  The entry of [meeting_id] has been
    removed from the registry by then; no live update is added and the
    history is not requested again. *)
Theorem meeting_ended_needs_meeting data type id st :
  JS.get data "type" = Normal type ->
  JS.strict_equal type (JStr "meeting_ended") = true ->
  JS.get data "meeting_id" = Normal id ->
  JS.get data "meeting" = Normal JUndefined
  \/ JS.get data "meeting" = Normal JNull ->
  fst (handleWebSocketMessage data st) = Throw TypeError
  /\ activeMeetings (snd (handleWebSocketMessage data st))
     = JSMap.delete id (activeMeetings st)
  /\ live_updates (snd (handleWebSocketMessage data st)) = live_updates st
  /\ requests (snd (handleWebSocketMessage data st)) = requests st.
Proof.
  intros Ht He Hid Hm. apply strict_equal_string in He. subst type.
  assert (H : handleWebSocketMessage data st
              = match removeActiveMeeting id st with
                | (Normal _, st') => (Throw TypeError, st')
                | (Throw e, st') => (Throw e, st')
                end).
  { unfold handleWebSocketMessage. unfold bind at 1. unfold lift at 1.
    rewrite Ht. cbn [JS.strict_equal String.eqb Ascii.eqb Bool.eqb].
    unfold bind at 1. unfold lift at 1. rewrite Hid.
    unfold bind at 1.
    destruct (removeActiveMeeting id st) as [[u|e] st']; [|reflexivity].
    unfold bind, lift. destruct Hm as [-> | ->]; reflexivity. }
  rewrite H.
  pose proof (removeActiveMeeting_registry id st) as Hr.
  pose proof (removeActiveMeeting_completion id st) as Hc.
  pose proof (removeActiveMeeting_keeps live_updates id) as Hl.
  pose proof (removeActiveMeeting_keeps requests id) as Hq.
  specialize (Hl ltac:(ign) ltac:(ign) st).
  specialize (Hq ltac:(ign) ltac:(ign) st).
  destruct (removeActiveMeeting id st) as [[u|e] st']; simpl in *.
  - auto.
  - destruct Hc as [Hc|Hc]; [discriminate|]. auto.
Qed.

(** C1, as the code has it.  A meetings_update event leaves the registry
    and its cards as they were, whatever it carries; what it replaces is
    the meeting-history table: a non-empty array under [data.meetings]
    whose rows render becomes the rows of the table. *)
Theorem meetings_update_keeps_registry data type st :
  JS.get data "type" = Normal type ->
  JS.strict_equal type (JStr "meetings_update") = true ->
  activeMeetings (snd (handleWebSocketMessage data st)) = activeMeetings st
  /\ active_meetings (snd (handleWebSocketMessage data st))
     = active_meetings st
  /\ forall d ref M rows,
      JS.get data "data" = Normal d ->
      JS.get d "meetings" = Normal (JArr ref M) ->
      M <> [] ->
      traverse render_row M = Normal rows ->
      handleWebSocketMessage data st
      = (Normal tt, set_meeting_history (Rows rows) st).
Proof.
  intros Ht He. apply strict_equal_string in He. subst type.
  assert (H : handleWebSocketMessage data st
              = (d <- lift (JS.get data "data") ;;
                 meetings <- lift (JS.get d "meetings") ;;
                 updateMeetingHistory meetings) st).
  { unfold handleWebSocketMessage. unfold bind at 1. unfold lift at 1.
    rewrite Ht. reflexivity. }
  rewrite H. split; [|split].
  - apply (fun K => K st). change (keeps activeMeetings
      (d <- lift (JS.get data "data") ;;
       meetings <- lift (JS.get d "meetings") ;;
       updateMeetingHistory meetings)). keep.
  - apply (fun K => K st). change (keeps active_meetings
      (d <- lift (JS.get data "data") ;;
       meetings <- lift (JS.get d "meetings") ;;
       updateMeetingHistory meetings)). keep.
  - intros d ref M rows Hd Hm Hne Hrows.
    unfold bind, lift. rewrite Hd, Hm.
    unfold updateMeetingHistory, bind, lift, modify.
    destruct M as [|m M]; [contradiction|].
    cbn [JS.truthy negb orb length_is_zero List.length Nat.eqb].
    rewrite Hrows. reflexivity.
Qed.

(** C2, as the code has it.  When [JSON.parse] rejects the payload, the
    message handler throws the SyntaxError before anything is dispatched
    and the page is as it was; in the event loop the exception is
    reported as uncaught, nothing else changes, and the next task runs
    from there. *)
Theorem unparsable_message_throws f st :
  JSON.parse (next_ref st) (event_data f) = None ->
  onmessage f st = (Throw SyntaxError, st)
  /\ forall t i tasks,
      ready i st = Some OPEN ->
      run st ((t, SocketMessage i f) :: tasks)
      = run (set_console (fun l => (l ++ [Uncaught SyntaxError])%list)
               (set_now t st)) tasks.
Proof.
  intros H.
  assert (K : forall st', next_ref st' = next_ref st ->
                          onmessage f st' = (Throw SyntaxError, st')).
  { intros st' E. unfold onmessage, bind, JSON_parse. rewrite E, H.
    reflexivity. }
  split; [apply K; reflexivity|].
  intros t i tasks Hr. unfold run. cbn [fold_left]. f_equal.
  unfold step.
  change (ready i (set_now t st)) with (ready i st). rewrite Hr.
  unfold run_handler. rewrite K by reflexivity. reflexivity.
Qed.

(* ===================================================================== *)
(** ** Sessions, reconnection and the heartbeat *)
(* ===================================================================== *)

Lemma filter_live_set_nth l : forall i s s',
  nth_error l i = Some s ->
  (List.length (filter live (set_nth i s' l)) + (if live s then 1 else 0)
   = List.length (filter live l) + (if live s' then 1 else 0))%nat.
Proof.
  induction l as [|x l IH]; intros [|i] s s' H; simpl in H; try discriminate.
  - injection H as ->. simpl. destruct (live s), (live s'); simpl; lia.
  - simpl. specialize (IH i s s' H). destruct (live x); simpl; lia.
Qed.

Lemma live_sessions_set_ready i r r0 st :
  ready i st = Some r0 ->
  (live_sessions (set_ready i r st)
   + (match r0 with CLOSED => 0 | _ => 1 end)
   = live_sessions st + (match r with CLOSED => 0 | _ => 1 end))%nat.
Proof.
  unfold ready, live_sessions, set_ready. fields.
  destruct (nth_error (sockets st) i) as [s|] eqn:E; [|discriminate].
  simpl. intros H. injection H as <-.
  pose proof (filter_live_set_nth (sockets st) i s
                {| url := url s; readyState := r |} E) as K.
  assert (L1 : live s = match readyState s with
                         | CLOSED => false
                         | _ => true
                         end) by reflexivity.
  assert (L2 : live {| url := url s; readyState := r |}
               = match r with CLOSED => false | _ => true end)
    by reflexivity.
  rewrite L1, L2 in K. clear L1 L2.
  destruct (readyState s), r; lia.
Qed.

Lemma remove_nth_length {A} (l : list A) : forall k x,
  nth_error l k = Some x ->
  S (List.length (remove_nth k l)) = List.length l.
Proof.
  induction l as [|y l IH]; intros [|k] x H; simpl in *; try discriminate;
    auto.
  f_equal. eapply IH. eassumption.
Qed.

Lemma remove_nth_Forall {A} (P : A -> Prop) (l : list A) : forall k,
  Forall P l -> Forall P (remove_nth k l).
Proof.
  induction l as [|y l IH]; intros [|k] H; simpl; auto;
    inversion H; subst; auto.
Qed.

Lemma session_ok_connection st st' :
  connection st' = connection st -> session_ok st -> session_ok st'.
Proof.
  unfold connection, session_ok, live_sessions. intros H.
  injection H as _ -> -> -> _. auto.
Qed.

(** An unconditional constructor call: the new session is added to the
    ones there are and becomes the current one. *)
Lemma connectWebSocket_opens st :
  connectWebSocket st
  = (Normal tt,
     set_websocketConnection (Some (List.length (sockets st)))
       (set_sockets
          (fun l =>
             (l ++ [{| url :=
                         (if String.eqb (location_protocol st) "https:"
                          then "wss:" else "ws:")
                           ++ "//" ++ location_host st ++ "/ws/dashboard";
                       readyState := CONNECTING |}])%list) st)).
Proof. reflexivity. Qed.

Lemma live_sessions_connect st :
  live_sessions (snd (connectWebSocket st)) = S (live_sessions st).
Proof.
  rewrite connectWebSocket_opens. unfold live_sessions. fields.
  rewrite filter_app, length_app. simpl. lia.
Qed.

Lemma onclose_schedules st :
  fst (onclose st) = Normal tt
  /\ timeouts (snd (onclose st))
     = (timeouts st ++ [(3000%Z, ConnectWebSocket)])%list.
Proof.
  unfold onclose, console_log, addLiveUpdate, setTimeout, bind, modify, gets,
    ret.
  fields.
  match goal with
  | |- context [if ?b then _ else _] => destruct b
  end; fields; auto.
Qed.

Lemma run_handler_normal c st :
  fst (c st) = Normal tt -> run_handler c st = snd (c st).
Proof.
  unfold run_handler. destruct (c st) as [[[]|e] st']; simpl; congruence.
Qed.

Lemma heartbeat_sends st :
  heartbeat st
  = match open_connection st with
    | Some i =>
        (Normal tt,
         set_sent
           (fun l => (l ++ [(i, JSON.stringify_ping (now st))])%list) st)
    | None => (Normal tt, st)
    end.
Proof.
  unfold heartbeat, open_connection, send, bind, gets, modify, ret.
  destruct (websocketConnection st) as [i|]; auto.
  destruct (ready i st) as [[]|] eqn:E; try reflexivity.
  cbv beta. rewrite E. reflexivity.
Qed.

Lemma open_connection_live st i :
  open_connection st = Some i ->
  websocketConnection st = Some i /\ ready i st = Some OPEN.
Proof.
  unfold open_connection. destruct (websocketConnection st) as [j|];
    [|discriminate].
  destruct (ready j st) as [[]|] eqn:E; try discriminate.
  intros H. injection H as <-. auto.
Qed.

(** Every task keeps the sessions and timers in order. *)
Lemma step_session_ok st task : session_ok st -> session_ok (step st task).
Proof.
  intros H. destruct task as [t e]. unfold step.
  assert (H0 : session_ok (set_now t st)) by exact H.
  assert (R : forall i, ready i (set_now t st) = ready i st) by reflexivity.
  destruct e.
  - destruct (ready i (set_now t st)) as [[]|] eqn:E; auto.
    apply session_ok_connection with (set_ready i OPEN (set_now t st)).
    + apply keeps_run_handler; auto with keeps.
    + pose proof (live_sessions_set_ready i OPEN _ _ E) as K.
      destruct H as (H1 & H2 & H3). repeat split; auto.
      change (timeouts (set_ready i OPEN (set_now t st))) with (timeouts st).
      change (live_sessions (set_now t st)) with (live_sessions st) in K.
      lia.
  - destruct (ready i (set_now t st)) as [[]|]; auto;
      (eapply session_ok_connection; [|exact H0]);
      apply keeps_run_handler; auto with keeps.
  - destruct (ready i (set_now t st)) as [[]|]; auto;
      (eapply session_ok_connection; [|exact H0]);
      apply keeps_run_handler; auto with keeps.
  - destruct (ready i (set_now t st)) as [[]|] eqn:E; auto;
      pose proof (live_sessions_set_ready i CLOSING _ _ E) as K;
      destruct H as (H1 & H2 & H3); repeat split; auto;
      change (timeouts (set_ready i CLOSING (set_now t st)))
        with (timeouts st);
      change (live_sessions (set_now t st)) with (live_sessions st) in K;
      lia.
  - destruct (ready i (set_now t st)) as [[]|] eqn:E; auto;
      pose proof (live_sessions_set_ready i CLOSED _ _ E) as K;
      change (live_sessions (set_now t st)) with (live_sessions st) in K;
      cbv iota in K;
      destruct H as (H1 & H2 & H3);
      destruct (onclose_schedules (set_ready i CLOSED (set_now t st)))
        as [C1 C2];
      rewrite (run_handler_normal _ _ C1);
      (repeat split;
       [ unfold live_sessions;
         rewrite (onclose_keeps sockets) by ign; rewrite C2, length_app;
         fold (live_sessions (set_ready i CLOSED (set_now t st)));
         change (timeouts (set_ready i CLOSED (set_now t st)))
           with (timeouts st); simpl; lia
       | rewrite C2; apply Forall_app; split; auto
       | rewrite (onclose_keeps intervals) by ign; exact H3 ]).
  - destruct (nth_error (timeouts (set_now t st)) k) as [[d g]|] eqn:E; auto.
    change (timeouts (set_now t st)) with (timeouts st) in E.
    destruct H as (H1 & H2 & H3).
    assert (G : (d, g) = (3000%Z, ConnectWebSocket)).
    { eapply Forall_forall in H2; [exact H2|].
      eapply nth_error_In. exact E. }
    injection G as -> ->. simpl call.
    rewrite run_handler_normal by reflexivity.
    repeat split.
    + rewrite live_sessions_connect.
      rewrite (connectWebSocket_keeps timeouts) by ign.
      change (live_sessions (set_timeouts (remove_nth k) (set_now t st)))
        with (live_sessions st).
      change (timeouts (set_timeouts (remove_nth k) (set_now t st)))
        with (remove_nth k (timeouts st)).
      pose proof (remove_nth_length _ _ _ E). lia.
    + rewrite (connectWebSocket_keeps timeouts) by ign.
      apply remove_nth_Forall. exact H2.
    + rewrite (connectWebSocket_keeps intervals) by ign. exact H3.
  - destruct (nth_error (intervals (set_now t st)) k) as [[d g]|] eqn:E; auto.
    change (intervals (set_now t st)) with (intervals st) in E.
    destruct H as (H1 & H2 & H3). rewrite H3 in E.
    destruct k as [|[|k]]; simpl in E; try discriminate.
    injection E as <- <-. simpl call.
    unfold session_ok, live_sessions.
    rewrite (keeps_run_handler sockets), (keeps_run_handler timeouts),
      (keeps_run_handler intervals); auto with keeps.
  - destruct (requests (set_now t st)); auto.
    apply session_ok_connection with (set_now t st); auto.
    rewrite keeps_run_handler; auto with keeps.
Qed.

Lemma run_session_ok tasks :
  forall st, session_ok st -> session_ok (run st tasks).
Proof.
  unfold run. induction tasks as [|task tasks IH]; simpl; auto.
  intros st H. apply IH. apply step_session_ok. exact H.
Qed.

Lemma loaded_session_ok protocol host : session_ok (loaded protocol host).
Proof. repeat split. constructor. Qed.


(** C7.  The close handler returns having scheduled one call of
    [connectWebSocket] after 3000 ms; so every close event adds exactly
    that one timeout, and in a run every pending timeout is such a
    reconnection, however many sessions have failed before. *)
Theorem close_schedules_reconnect :
  (forall st,
      fst (onclose st) = Normal tt
      /\ timeouts (snd (onclose st))
         = (timeouts st ++ [(3000%Z, ConnectWebSocket)])%list)
  /\ (forall st t i,
         timeouts (step st (t, SocketClose i))
         = if can_close i st
           then (timeouts st ++ [(3000%Z, ConnectWebSocket)])%list
           else timeouts st)
  /\ (forall protocol host tasks,
         Forall (fun x => x = (3000%Z, ConnectWebSocket))
           (timeouts (run (loaded protocol host) tasks))).
Proof.
  split; [|split].
  - apply onclose_schedules.
  - intros st t i. unfold step, can_close.
    change (ready i (set_now t st)) with (ready i st).
    destruct (ready i st) as [[]|]; try reflexivity;
      destruct (onclose_schedules (set_ready i CLOSED (set_now t st)))
        as [C1 C2];
      rewrite (run_handler_normal _ _ C1), C2; reflexivity.
  - intros protocol host tasks.
    apply (run_session_ok tasks _ (loaded_session_ok protocol host)).
Qed.

Lemma step_sent st task :
  sent (step st task) = sent st
  \/ exists i,
      websocketConnection st = Some i /\ ready i st = Some OPEN
      /\ sent (step st task)
         = (sent st ++ [(i, JSON.stringify_ping (fst task))])%list.
Proof.
  assert (C : forall f st',
             open_connection st' = open_connection st ->
             sent st' = sent st ->
             sent (run_handler (call f) st') = sent st
             \/ exists i,
                 websocketConnection st = Some i /\ ready i st = Some OPEN
                 /\ sent (run_handler (call f) st')
                    = (sent st ++ [(i, JSON.stringify_ping (now st'))])%list).
  { intros [] st' Ho Hs.
    - left. rewrite keeps_run_handler; auto with keeps.
    - unfold call, run_handler. rewrite heartbeat_sends, Ho.
      destruct (open_connection st) as [i|] eqn:E; [right|left; exact Hs].
      exists i. apply open_connection_live in E. destruct E as [E1 E2].
      repeat split; auto. fields. rewrite Hs. reflexivity. }
  destruct task as [t e]. unfold step.
  destruct e.
  - destruct (ready i (set_now t st)) as [[]|]; auto.
    left. rewrite keeps_run_handler; auto with keeps.
  - destruct (ready i (set_now t st)) as [[]|]; auto;
      left; rewrite keeps_run_handler; auto with keeps.
  - destruct (ready i (set_now t st)) as [[]|]; auto;
      left; rewrite keeps_run_handler; auto with keeps.
  - destruct (ready i (set_now t st)) as [[]|]; auto.
  - destruct (ready i (set_now t st)) as [[]|]; auto;
      left; rewrite keeps_run_handler; auto with keeps.
  - destruct (nth_error (timeouts (set_now t st)) k) as [[d g]|];
      [|left; reflexivity].
    apply (C g (set_timeouts (remove_nth k) (set_now t st))); reflexivity.
  - destruct (nth_error (intervals (set_now t st)) k) as [[d g]|];
      [|left; reflexivity].
    apply (C g (set_now t st)); reflexivity.
  - destruct (requests (set_now t st)); auto.
    left. rewrite keeps_run_handler; auto with keeps.
Qed.

(* --------------------------------------------------------------------- *)
(** *** The probe is the JSON text of the ping object *)
(* --------------------------------------------------------------------- *)

Lemma read_digits_uint u : forall acc n r,
  JSON.read_digits (NilEmpty.string_of_uint u ++ String "}" r) acc n
  = (uint_value acc u, (n + Z.of_nat (Decimal.nb_digits u))%Z, String "}" r).
Proof.
  induction u; intros acc n r;
    try (cbn [NilEmpty.string_of_uint append JSON.read_digits uint_value
                Decimal.nb_digits];
         change (JSON.digit _) with (Some 0%Z) ||
         change (JSON.digit _) with (Some 1%Z) ||
         change (JSON.digit _) with (Some 2%Z) ||
         change (JSON.digit _) with (Some 3%Z) ||
         change (JSON.digit _) with (Some 4%Z) ||
         change (JSON.digit _) with (Some 5%Z) ||
         change (JSON.digit _) with (Some 6%Z) ||
         change (JSON.digit _) with (Some 7%Z) ||
         change (JSON.digit _) with (Some 8%Z) ||
         change (JSON.digit _) with (Some 9%Z);
         cbv iota; rewrite IHu; do 2 f_equal; lia).
  cbn [NilEmpty.string_of_uint append JSON.read_digits uint_value
         Decimal.nb_digits].
  change (JSON.digit "}") with (@None Z). cbv iota. do 2 f_equal. lia.
Qed.

Lemma uint_value_acc u : forall p,
  uint_value (Zpos p) u = Zpos (Pos.of_uint_acc u p).
Proof.
  induction u; intros p; cbn [uint_value Pos.of_uint_acc]; auto;
    rewrite <- IHu; f_equal; lia.
Qed.

(** The digits of a positive number start with a digit that is not 0. *)
Lemma to_uint_head p :
  match Pos.to_uint p with
  | Decimal.Nil | Decimal.D0 _ => False
  | _ => True
  end.
Proof.
  pose proof (DecimalPos.Unsigned.to_of (Pos.to_uint p)) as H.
  rewrite DecimalPos.Unsigned.of_to in H. cbn [N.to_uint] in H.
  pose proof (DecimalPos.Unsigned.to_uint_nonzero p) as Hz.
  unfold Decimal.unorm in H.
  destruct (Decimal.nzhead (Pos.to_uint p)) eqn:E;
    try (rewrite H; exact I).
  - congruence.
  - rewrite H in E. exfalso. eapply DecimalFacts.nzhead_nonzero. exact E.
Qed.

Lemma to_uint_value p : uint_value 0 (Pos.to_uint p) = Zpos p.
Proof.
  pose proof (DecimalPos.Unsigned.of_to p) as H.
  pose proof (to_uint_head p) as K.
  destruct (Pos.to_uint p); try contradiction;
    cbn [uint_value Pos.of_uint] in *; injection H as H;
    rewrite <- H; apply uint_value_acc.
Qed.

Lemma decimal_integer m : JSON.decimal m (0 - 0) = inject_Z m.
Proof. unfold JSON.decimal. simpl. rewrite Z.mul_1_r. reflexivity. Qed.

Lemma skip_ws_brace r : JSON.skip_ws (String "}" r) = String "}" r.
Proof. reflexivity. Qed.

(** A numeral with no fraction and no exponent, before a brace. *)
Lemma read_number_pos p r :
  JSON.read_number
    (NilEmpty.string_of_uint (Pos.to_uint p) ++ String "}" r)
  = Some (inject_Z (Zpos p), String "}" r).
Proof.
  pose proof (to_uint_value p) as V. pose proof (to_uint_head p) as K.
  destruct (Pos.to_uint p) as [|u|u|u|u|u|u|u|u|u|u]; try contradiction;
    cbn [NilEmpty.string_of_uint append uint_value] in *;
    unfold JSON.read_number;
    cbn [JSON.starts Ascii.eqb Bool.eqb]; cbv iota beta;
    (change (JSON.digit _) with (Some 1%Z) ||
     change (JSON.digit _) with (Some 2%Z) ||
     change (JSON.digit _) with (Some 3%Z) ||
     change (JSON.digit _) with (Some 4%Z) ||
     change (JSON.digit _) with (Some 5%Z) ||
     change (JSON.digit _) with (Some 6%Z) ||
     change (JSON.digit _) with (Some 7%Z) ||
     change (JSON.digit _) with (Some 8%Z) ||
     change (JSON.digit _) with (Some 9%Z));
    cbv iota beta; cbn [Z.eqb]; cbv iota; rewrite read_digits_uint;
    cbv iota beta; cbn [JSON.starts Ascii.eqb Bool.eqb orb]; cbv iota;
    rewrite decimal_integer; simpl in V; rewrite V; reflexivity.
Qed.

Lemma read_number_neg p r :
  JSON.read_number
    (String "-" (NilEmpty.string_of_uint (Pos.to_uint p)) ++ String "}" r)
  = Some (inject_Z (Zneg p), String "}" r).
Proof.
  pose proof (to_uint_value p) as V. pose proof (to_uint_head p) as K.
  destruct (Pos.to_uint p) as [|u|u|u|u|u|u|u|u|u|u]; try contradiction;
    cbn [NilEmpty.string_of_uint append uint_value] in *;
    unfold JSON.read_number;
    cbn [JSON.starts Ascii.eqb Bool.eqb]; cbv iota beta;
    (change (JSON.digit _) with (Some 1%Z) ||
     change (JSON.digit _) with (Some 2%Z) ||
     change (JSON.digit _) with (Some 3%Z) ||
     change (JSON.digit _) with (Some 4%Z) ||
     change (JSON.digit _) with (Some 5%Z) ||
     change (JSON.digit _) with (Some 6%Z) ||
     change (JSON.digit _) with (Some 7%Z) ||
     change (JSON.digit _) with (Some 8%Z) ||
     change (JSON.digit _) with (Some 9%Z));
    cbv iota beta; cbn [Z.eqb]; cbv iota; rewrite read_digits_uint;
    cbv iota beta; cbn [JSON.starts Ascii.eqb Bool.eqb orb]; cbv iota;
    rewrite decimal_integer; simpl in V; rewrite V; reflexivity.
Qed.

Lemma digits_pos p :
  JSON.digits (Zpos p) = NilEmpty.string_of_uint (Pos.to_uint p).
Proof.
  unfold JSON.digits. cbn [Z.to_int NilZero.string_of_int].
  unfold NilZero.string_of_uint. pose proof (to_uint_head p) as K.
  destruct (Pos.to_uint p); try contradiction; reflexivity.
Qed.

Lemma digits_neg p :
  JSON.digits (Zneg p)
  = String "-" (NilEmpty.string_of_uint (Pos.to_uint p)).
Proof.
  unfold JSON.digits. cbn [Z.to_int NilZero.string_of_int].
  unfold NilZero.string_of_uint. pose proof (to_uint_head p) as K.
  destruct (Pos.to_uint p); try contradiction; reflexivity.
Qed.

Lemma read_number_digits t r :
  JSON.read_number (JSON.digits t ++ String "}" r)
  = Some (inject_Z t, String "}" r).
Proof.
  destruct t as [|p|p].
  - reflexivity.
  - rewrite digits_pos. apply read_number_pos.
  - rewrite digits_neg. apply read_number_neg.
Qed.

(** A text that starts with a digit or a minus is read as a number. *)
Lemma parse_value_numeral fuel next c s :
  JSON.digit c <> None \/ c = "-"%char ->
  JSON.parse_value (S fuel) next (String c s)
  = match JSON.read_number (String c s) with
    | Some (q, r) => Some (JNum q, next, r)
    | None => None
    end.
Proof.
  intros H.
  assert (K : JSON.is_ws c = false
              /\ Ascii.eqb c "{" = false /\ Ascii.eqb c "[" = false
              /\ Ascii.eqb c JSON.quote = false /\ Ascii.eqb c "t" = false
              /\ Ascii.eqb c "f" = false /\ Ascii.eqb c "n" = false).
  { destruct H as [H | ->]; [|repeat split].
    destruct c as [[] [] [] [] [] [] [] []];
      try (exfalso; apply H; reflexivity); repeat split. }
  destruct K as (K0 & K1 & K2 & K3 & K4 & K5 & K6).
  cbn [JSON.parse_value JSON.skip_ws]. rewrite K0, K1, K2, K3, K4, K5, K6.
  reflexivity.
Qed.

Lemma digits_head t :
  exists c s, JSON.digits t = String c s
              /\ (JSON.digit c <> None \/ c = "-"%char).
Proof.
  destruct t as [|p|p].
  - exists "0"%char, "". split; [reflexivity|left; discriminate].
  - rewrite digits_pos. pose proof (to_uint_head p) as K.
    destruct (Pos.to_uint p); try contradiction;
      cbn [NilEmpty.string_of_uint]; eexists _, _;
      (split; [reflexivity|left; discriminate]).
  - rewrite digits_neg. eexists _, _. split; [reflexivity|right; reflexivity].
Qed.

Lemma parse_value_digits fuel next t r :
  JSON.parse_value (S fuel) next (JSON.digits t ++ String "}" r)
  = Some (JNum (inject_Z t), next, String "}" r).
Proof.
  pose proof (read_number_digits t r) as H.
  destruct (digits_head t) as (c & s & E & K).
  rewrite E in *. cbn [append] in *.
  rewrite parse_value_numeral, H by exact K. reflexivity.
Qed.

Lemma parse_value_object fuel next r :
  JSON.parse_value (S fuel) next (String "{" (String JSON.quote r))
  = match JSON.parse_members fuel (S next) (String JSON.quote r) [] with
    | Some (props, next', r') => Some (JObj next props, next', r')
    | None => None
    end.
Proof. reflexivity. Qed.

Lemma parse_value_string fuel next r l r' :
  JSON.read_string r = Some (l, r') ->
  JSON.parse_value (S fuel) next (String JSON.quote r)
  = Some (JStr (JSON.encode l), next, r').
Proof.
  intros H. cbn [JSON.parse_value JSON.skip_ws]. 
  change (JSON.is_ws JSON.quote) with false. cbv iota.
  change (Ascii.eqb JSON.quote "{") with false.
  change (Ascii.eqb JSON.quote "[") with false.
  change (Ascii.eqb JSON.quote JSON.quote) with true.
  cbv iota. rewrite H. reflexivity.
Qed.

Lemma parse_members_member fuel next r key r2 acc :
  JSON.read_string r = Some (key, String ":" r2) ->
  JSON.parse_members (S fuel) next (String JSON.quote r) acc
  = match JSON.parse_value fuel next r2 with
    | None => None
    | Some (v, next', r3) =>
        match JSON.starts "," (JSON.skip_ws r3) with
        | Some r4 =>
            JSON.parse_members fuel next' r4
              (JSON.define (JSON.encode key) v acc)
        | None =>
            match JSON.starts "}" (JSON.skip_ws r3) with
            | Some r4 =>
                Some (JSON.define (JSON.encode key) v acc, next', r4)
            | None => None
            end
        end
    end.
Proof.
  intros H. cbn [JSON.parse_members JSON.skip_ws].
  change (JSON.is_ws JSON.quote) with false. cbv iota.
  change (JSON.starts JSON.quote (String JSON.quote r)) with (Some r).
  cbv iota. rewrite H. reflexivity.
Qed.

(** The text of a probe is the JSON text of the ping object. *)
Lemma parse_stringify_ping next t :
  JSON.parse next (JSON.stringify_ping t) = Some (ping next t, S next).
Proof.
  unfold JSON.parse, JSON.stringify_ping, JSON.quoted.
  cbn [append String.length].
  rewrite parse_value_object.
  erewrite parse_members_member by reflexivity.
  erewrite parse_value_string by reflexivity.
  change (JSON.starts "," (JSON.skip_ws (String "," ?r))) with (Some r).
  cbv iota.
  erewrite parse_members_member by reflexivity.
  rewrite parse_value_digits.
  reflexivity.
Qed.

(** C6.  The heartbeat sends a probe exactly when the current connection
    is open, and nothing else ever sends: a task of the event loop either
    sends nothing or sends, on the open current connection, the text of
    [{type: 'ping', timestamp: t}] for the time [t] of the task.  The
    interval of 30000 ms registered by the script is the only one,
    whatever tasks run; and that text decodes to the ping object. *)
Theorem heartbeat_only_when_open :
  (forall st,
      heartbeat st
      = match open_connection st with
        | Some i =>
            (Normal tt,
             set_sent
               (fun l => (l ++ [(i, JSON.stringify_ping (now st))])%list) st)
        | None => (Normal tt, st)
        end)
  /\ (forall st task,
         sent (step st task) = sent st
         \/ exists i,
             websocketConnection st = Some i /\ ready i st = Some OPEN
             /\ sent (step st task)
                = (sent st ++ [(i, JSON.stringify_ping (fst task))])%list)
  /\ (forall protocol host tasks,
         intervals (run (loaded protocol host) tasks)
         = [(30000%Z, Heartbeat)])
  /\ (forall next t,
         JSON.parse next (JSON.stringify_ping t) = Some (ping next t, S next)).
Proof.
  split; [|split; [|split]].
  - apply heartbeat_sends.
  - apply step_sent.
  - intros protocol host tasks.
    apply (run_session_ok tasks _ (loaded_session_ok protocol host)).
  - apply parse_stringify_ping.
Qed.

(* ===================================================================== *)
(** ** The statements on the examples *)
(* ===================================================================== *)

(** The registry holds m3; a meetings_update carrying m1 and m2 leaves it
    holding m3 and neither m1 nor m2, which is not the registry made of
    m1 and m2. *)
Lemma meetings_update_counterexample :
  activeMeetings (snd (handleWebSocketMessage example_update example_m3))
  = activeMeetings example_m3
  /\ JSMap.has (JStr "m3")
    (activeMeetings (snd (handleWebSocketMessage example_update example_m3)))
  = true
  /\ JSMap.has (JStr "m1")
       (activeMeetings
          (snd (handleWebSocketMessage example_update example_m3)))
     = false
  /\ activeMeetings (snd (handleWebSocketMessage example_update example_m3))
     <> spec_replaceAll
          [example_meeting "m1" "Standup" 13;
           example_meeting "m2" "Planning" 14].
Proof.
  split; [vm_compute; reflexivity|].
  split; [vm_compute; reflexivity|].
  split; [vm_compute; reflexivity|].
  intros H. apply (f_equal (@List.length _)) in H. vm_compute in H.
  discriminate.
Qed.

Lemma meetings_update_keeps_registry_witness :
  JS.get example_update "type" = Normal (JStr "meetings_update")
  /\ activeMeetings (snd (handleWebSocketMessage example_update example_m3))
     = activeMeetings example_m3
  /\ handleWebSocketMessage example_update example_m3
     = (Normal tt, set_meeting_history (Rows example_rows) example_m3).
Proof.
  split; [reflexivity|].
  pose (H := meetings_update_keeps_registry example_update
               (JStr "meetings_update") example_m3 eq_refl eq_refl).
  split; [exact (proj1 H)|].
  refine (proj2 (proj2 H) _ 12%nat _ example_rows eq_refl eq_refl _ eq_refl).
  discriminate.
Defined.

(** A payload that is no JSON text: the handler throws, and nothing is
    written to the console by the page. *)
Lemma unparsable_counterexample :
  JSON.parse (next_ref example_open) "not json" = None
  /\ fst (onmessage (TextFrame "not json") example_open) = Throw SyntaxError
  /\ console (snd (onmessage (TextFrame "not json") example_open))
     = console example_open.
Proof. repeat split; vm_compute; reflexivity. Qed.

Lemma unparsable_message_throws_witness :
  JSON.parse (next_ref example_open) (event_data (TextFrame "not json"))
  = None
  /\ onmessage (TextFrame "not json") example_open
     = (Throw SyntaxError, example_open)
  /\ run example_open
       [(7%Z, SocketMessage 0 (TextFrame "not json"));
        (8%Z, SocketMessage 0 (TextFrame "{}"))]
     = run (set_console (fun l => (l ++ [Uncaught SyntaxError])%list)
              (set_now 7 example_open))
         [(8%Z, SocketMessage 0 (TextFrame "{}"))].
Proof.
  split; [reflexivity|].
  pose (H := unparsable_message_throws (TextFrame "not json") example_open
               eq_refl).
  split; [exact (proj1 H)|].
  exact (proj2 H 7%Z 0%nat _ eq_refl).
Defined.



Lemma unknown_kind_dropped_witness :
  JS.get example_unknown "type" = Normal (JStr "meeting_paused")
  /\ is_known (JStr "meeting_paused") = false
  /\ fst (handleWebSocketMessage example_unknown example_m3) = Normal tt
  /\ activeMeetings (snd (handleWebSocketMessage example_unknown example_m3))
     = activeMeetings example_m3.
Proof.
  split; [reflexivity|split; [reflexivity|]].
  pose (H := unknown_kind_dropped example_unknown (JStr "meeting_paused")
               example_m3 eq_refl eq_refl).
  split; [exact (f_equal fst (proj1 H)) | exact (proj2 H)].
Defined.

Lemma meeting_ended_needs_meeting_witness :
  JS.get example_ended "meeting" = Normal JUndefined
  /\ fst (handleWebSocketMessage example_ended example_m3) = Throw TypeError
  /\ activeMeetings (snd (handleWebSocketMessage example_ended example_m3))
     = []
  /\ live_updates (snd (handleWebSocketMessage example_ended example_m3))
     = live_updates example_m3.
Proof.
  split; [reflexivity|].
  pose (H := meeting_ended_needs_meeting example_ended (JStr "meeting_ended")
               (JStr "m3") example_m3 eq_refl eq_refl eq_refl
               (or_introl eq_refl)).
  split; [exact (proj1 H)|].
  split; [exact (proj1 (proj2 H)) | exact (proj1 (proj2 (proj2 H)))].
Defined.

(** The first scenario of the specification, from the texts received:
    after meeting_started the registry holds exactly m1, after
    meeting_ended it is empty. *)
Example scenario_started_ended :
  map fst
    (activeMeetings
       (run example_open [(6%Z, SocketMessage 0 example_started_frame)]))
  = [JStr "m1"]
  /\ activeMeetings
       (run example_open
          [(6%Z, SocketMessage 0 example_started_frame);
           (7%Z, SocketMessage 0 example_ended_frame)])
     = [].
Proof. split; vm_compute; reflexivity. Qed.

(** A probe, as sent 30 seconds after the session opened. *)
Example scenario_heartbeat :
  sent (run example_open [(30005%Z, IntervalFires 0)])
  = [(0%nat, JSON.dq "{'type':'ping','timestamp':30005}")]
  /\ sent (run (loaded "https:" "dashboard.example")
             [(30000%Z, IntervalFires 0)])
     = [].
Proof. split; vm_compute; reflexivity. Qed.

(* ===================================================================== *)
(** ** Further properties: the registry *)
(* ===================================================================== *)

Lemma Map_get_set_same k v m : Map_get k (JSMap.set k v m) = Some v.
Proof.
  induction m as [|[k' v'] m IH]; cbn [JSMap.set Map_get].
  - unfold JS.same_value_zero. rewrite strict_equal_refl. reflexivity.
  - destruct (JS.same_value_zero k' k) eqn:E; cbn [Map_get]; rewrite E; auto.
Qed.

Lemma Map_get_set_other k v x m :
  JS.same_value_zero k x = false ->
  Map_get x (JSMap.set k v m) = Map_get x m.
Proof.
  intros H. induction m as [|[k' v'] m IH]; cbn [JSMap.set Map_get].
  - rewrite H. reflexivity.
  - destruct (JS.same_value_zero k' k) eqn:E; cbn [Map_get].
    + rewrite (same_value_zero_left k' k x E), H. reflexivity.
    + rewrite IH. reflexivity.
Qed.

Lemma size_set k v m :
  JSMap.size (JSMap.set k v m)
  = if JSMap.has k m then JSMap.size m else S (JSMap.size m).
Proof.
  unfold JSMap.size.
  induction m as [|[k' v'] m IH]; cbn [JSMap.set]; [reflexivity|].
  rewrite has_cons. destruct (JS.same_value_zero k' k); simpl; auto.
  rewrite IH. destruct (JSMap.has k m); reflexivity.
Qed.

Lemma delete_absent k m : JSMap.has k m = false -> JSMap.delete k m = m.
Proof.
  induction m as [|[k' v'] m IH]; cbn [JSMap.delete]; auto.
  rewrite has_cons. intros H. apply orb_false_iff in H. destruct H as [H1 H2].
  rewrite H1, IH by assumption. reflexivity.
Qed.

Lemma delete_set k v m : JSMap.delete k (JSMap.set k v m) = JSMap.delete k m.
Proof.
  induction m as [|[k' v'] m IH]; cbn [JSMap.set JSMap.delete].
  - unfold JS.same_value_zero. rewrite strict_equal_refl. reflexivity.
  - destruct (JS.same_value_zero k' k) eqn:E; cbn [JSMap.delete]; rewrite E;
      [reflexivity | rewrite IH; reflexivity].
Qed.

Lemma has_delete_unique k m :
  JSMap.unique_keys m = true -> JSMap.has k (JSMap.delete k m) = false.
Proof.
  induction m as [|[k' v'] m IH]; cbn [JSMap.delete]; auto.
  rewrite unique_cons. intros H. apply andb_true_iff in H.
  destruct H as [H1 H2]. apply negb_true_iff in H1.
  destruct (JS.same_value_zero k' k) eqn:E.
  - destruct (JSMap.has k m) eqn:F; auto.
    apply has_nth in F. destruct F as (j & e & F1 & F2).
    assert (G : JSMap.has k' m = true); [|congruence].
    apply has_nth. exists j, e. split; auto.
    unfold JS.same_value_zero in *.
    apply strict_equal_trans with k; auto.
    rewrite strict_equal_sym. exact E.
  - rewrite has_cons, E, IH by assumption. reflexivity.
Qed.

Lemma Map_get_has k m : JSMap.has k m = false -> Map_get k m = None.
Proof.
  induction m as [|[k' v'] m IH]; cbn [Map_get]; auto.
  rewrite has_cons. intros H. apply orb_false_iff in H. destruct H as [H1 H2].
  rewrite H1. auto.
Qed.

Lemma addActiveMeeting_registry meeting id st :
  JS.get meeting "meeting_id" = Normal id ->
  activeMeetings (snd (addActiveMeeting meeting st))
  = JSMap.set id meeting (activeMeetings st).
Proof.
  intros H. unfold addActiveMeeting. unfold bind at 1. unfold lift.
  rewrite H. unfold bind, modify.
  rewrite (updateActiveMeetingsDisplay_keeps activeMeetings); auto.
  ign.
Qed.

(** X1.  Removing a meeting id that the registry does not hold leaves the
    registry exactly as it was. *)
Theorem remove_absent_unchanged id st :
  JSMap.has id (activeMeetings st) = false ->
  activeMeetings (snd (removeActiveMeeting id st)) = activeMeetings st.
Proof.
  intros H. rewrite removeActiveMeeting_registry. apply delete_absent.
  exact H.
Qed.

(** X2.  In every state a run of the event loop reaches, the registry
    holds no entry for an id once [removeActiveMeeting] was called with
    it. *)
Theorem remove_then_absent protocol host tasks id :
  let st := run (loaded protocol host) tasks in
  JSMap.has id (activeMeetings (snd (removeActiveMeeting id st))) = false
  /\ Map_get id (activeMeetings (snd (removeActiveMeeting id st))) = None.
Proof.
  intros st.
  assert (H : JSMap.has id (activeMeetings (snd (removeActiveMeeting id st)))
              = false).
  { rewrite removeActiveMeeting_registry. apply has_delete_unique.
    apply run_ok. reflexivity. }
  split; [exact H | apply Map_get_has; exact H].
Qed.

(** X3.  After [addActiveMeeting(meeting)], also when the cards cannot be
    drawn, looking the meeting's id up gives that meeting, every other id
    gives what it gave before, and the registry is one entry larger
    exactly when the id was new. *)
Theorem add_then_lookup meeting id st :
  JS.get meeting "meeting_id" = Normal id ->
  Map_get id (activeMeetings (snd (addActiveMeeting meeting st)))
  = Some meeting
  /\ (forall k,
         JS.same_value_zero id k = false ->
         Map_get k (activeMeetings (snd (addActiveMeeting meeting st)))
         = Map_get k (activeMeetings st))
  /\ JSMap.size (activeMeetings (snd (addActiveMeeting meeting st)))
     = if JSMap.has id (activeMeetings st)
       then JSMap.size (activeMeetings st)
       else S (JSMap.size (activeMeetings st)).
Proof.
  intros H. rewrite (addActiveMeeting_registry _ _ _ H).
  split; [apply Map_get_set_same|split].
  - intros k Hk. apply Map_get_set_other. exact Hk.
  - apply size_set.
Qed.

(** X4.  Adding a meeting and then removing its id leaves the registry as
    it is without that id; when the id was not there before, the registry
    is back to what it was. *)
Theorem add_then_remove meeting id st :
  JS.get meeting "meeting_id" = Normal id ->
  activeMeetings
    (snd (removeActiveMeeting id (snd (addActiveMeeting meeting st))))
  = JSMap.delete id (activeMeetings st)
  /\ (JSMap.has id (activeMeetings st) = false ->
      activeMeetings
        (snd (removeActiveMeeting id (snd (addActiveMeeting meeting st))))
      = activeMeetings st).
Proof.
  intros H.
  rewrite removeActiveMeeting_registry, (addActiveMeeting_registry _ _ _ H),
    delete_set.
  split; [reflexivity|]. apply delete_absent.
Qed.

Lemma traverse_length {A B} (f : A -> completion B) l : forall l',
  traverse f l = Normal l' -> List.length l' = List.length l.
Proof.
  induction l as [|x l IH]; intros l' H; simpl in H.
  - injection H as <-. reflexivity.
  - unfold and_then in H. destruct (f x); [|discriminate].
    destruct (traverse f l) as [ys|]; [|discriminate].
    injection H as <-. simpl. f_equal. apply IH. reflexivity.
Qed.

Lemma render_card_id e c : render_card e = Normal c -> card_id c = fst e.
Proof.
  destruct e as [k v]. unfold render_card, and_then, JS.ToString.
  destruct (JS.convertible k); [|discriminate].
  repeat match goal with
         | |- context [match JS.get ?x ?n with _ => _ end] =>
             destruct (JS.get x n); [|discriminate]
         | |- context [if ?b then _ else _] => destruct b; [|discriminate]
         end.
  intros H. injection H as <-. reflexivity.
Qed.

Lemma traverse_render_ids m : forall html,
  traverse render_card m = Normal html -> map card_id html = map fst m.
Proof.
  induction m as [|e m IH]; intros html H; simpl in H.
  - injection H as <-. reflexivity.
  - unfold and_then in H. destruct (render_card e) as [c|] eqn:E;
      [|discriminate].
    destruct (traverse render_card m) as [ys|]; [|discriminate].
    injection H as <-. simpl. rewrite (render_card_id _ _ E), (IH ys); auto.
Qed.

(** What a redraw does, by whether every card can be drawn. *)
Lemma updateActiveMeetingsDisplay_run st :
  updateActiveMeetingsDisplay st
  = match traverse render_card (activeMeetings st) with
    | Normal html =>
        (Normal tt, set_active_meetings (shown (activeMeetings st) html) st)
    | Throw _ => (Throw TypeError, st)
    end.
Proof.
  unfold updateActiveMeetingsDisplay, bind, gets, lift, modify, shown.
  destruct (traverse render_card (activeMeetings st)) as [html|e] eqn:T.
  - destruct (JSMap.size (activeMeetings st) =? 0)%nat; reflexivity.
  - destruct (JSMap.size (activeMeetings st) =? 0)%nat eqn:E.
    + apply Nat.eqb_eq in E. unfold JSMap.size in E.
      destruct (activeMeetings st); [discriminate|discriminate].
    + apply traverse_TypeError in T; [subst; reflexivity|].
      apply render_card_TypeError.
Qed.

(** X5.  Drawing the cards either succeeds, and then the container shows
    the placeholder for an empty registry and otherwise one card per
    entry, in the order of the registry and with the entry's key as its
    id; or the call throws a TypeError and the page is as it was, the
    container still showing what it showed. *)
Theorem display_follows_registry st :
  match traverse render_card (activeMeetings st) with
  | Normal html =>
      updateActiveMeetingsDisplay st
      = (Normal tt,
         set_active_meetings (shown (activeMeetings st) html) st)
      /\ List.length html = JSMap.size (activeMeetings st)
      /\ map card_id html = map fst (activeMeetings st)
  | Throw _ => updateActiveMeetingsDisplay st = (Throw TypeError, st)
  end.
Proof.
  rewrite updateActiveMeetingsDisplay_run.
  destruct (traverse render_card (activeMeetings st)) as [html|e] eqn:T.
  - split; [reflexivity|split].
    + apply (traverse_length _ _ _ T).
    + apply traverse_render_ids. exact T.
  - reflexivity.
Qed.

Lemma traverse_throws {A B} (f : A -> completion B) l x e :
  In x l -> f x = Throw e -> exists e', traverse f l = Throw e'.
Proof.
  intros Hin Hx. induction l as [|y l IH]; [contradiction|].
  simpl. unfold and_then at 1. destruct (f y) eqn:E; [|eauto].
  destruct Hin as [-> | Hin]; [congruence|].
  destruct (IH Hin) as [e' ->]. simpl. eauto.
Qed.

Lemma In_set_other k v id meeting m :
  In (k, v) m -> JS.same_value_zero k id = false ->
  In (k, v) (JSMap.set id meeting m).
Proof.
  intros Hin Hk. induction m as [|[k' v'] m IH]; [contradiction|].
  cbn [JSMap.set]. destruct Hin as [E | Hin].
  - injection E as -> ->. rewrite Hk. left. reflexivity.
  - destruct (JS.same_value_zero k' id); [right; exact Hin|].
    right. apply IH. exact Hin.
Qed.

(** X6.  While the registry holds a meeting whose card cannot be drawn
    (its title, say, is an object with a member toString), adding a
    meeting under another id stores it and then throws a TypeError: the
    cards stay as they were, and so does everything but the registry. *)
Theorem undrawable_meeting_blocks_display k v e meeting id st :
  In (k, v) (activeMeetings st) ->
  render_card (k, v) = Throw e ->
  JS.get meeting "meeting_id" = Normal id ->
  JS.same_value_zero k id = false ->
  addActiveMeeting meeting st
  = (Throw TypeError, set_activeMeetings (JSMap.set id meeting) st).
Proof.
  intros Hin Hr Hid Hk.
  unfold addActiveMeeting. unfold bind at 1. unfold lift. rewrite Hid.
  unfold bind at 1. unfold modify.
  rewrite updateActiveMeetingsDisplay_run.
  destruct (traverse_throws render_card
              (activeMeetings (set_activeMeetings (JSMap.set id meeting) st))
              (k, v) e) as [e' T]; auto.
  { apply In_set_other; assumption. }
  rewrite T. reflexivity.
Qed.

(* ===================================================================== *)
(** ** Further properties: the dispatcher *)
(* ===================================================================== *)

(** X7.  A meeting_started event whose [meeting] is absent or null makes
    the dispatcher throw a TypeError before anything is changed: the page
    is as it was. *)
Theorem meeting_started_needs_meeting data type st :
  JS.get data "type" = Normal type ->
  JS.strict_equal type (JStr "meeting_started") = true ->
  JS.get data "meeting" = Normal JUndefined
  \/ JS.get data "meeting" = Normal JNull ->
  handleWebSocketMessage data st = (Throw TypeError, st).
Proof.
  intros Ht He Hm. apply strict_equal_string in He. subst type.
  unfold handleWebSocketMessage. unfold bind at 1. unfold lift at 1.
  rewrite Ht. cbn [JS.strict_equal String.eqb Ascii.eqb Bool.eqb].
  unfold bind at 1. unfold lift at 1.
  destruct Hm as [-> | ->]; reflexivity.
Qed.

(** X8.  A meeting_started event whose meeting has a readable id and a
    title that converts to a string, on a page whose cards can be drawn
    with it, is dispatched without a throw: the meeting is stored under
    its id, the cards are redrawn and the feed gets the line
    "Meeting started: " followed by the title. *)
Theorem meeting_started_stores data type meeting id title html st :
  JS.get data "type" = Normal type ->
  JS.strict_equal type (JStr "meeting_started") = true ->
  JS.get data "meeting" = Normal meeting ->
  JS.get meeting "meeting_id" = Normal id ->
  JS.get meeting "title" = Normal title ->
  JS.convertible title = true ->
  traverse render_card (JSMap.set id meeting (activeMeetings st))
  = Normal html ->
  handleWebSocketMessage data st
  = addLiveUpdate [Lit "Meeting started: "; Sub title] "info"
      (set_active_meetings (Cards html)
         (set_activeMeetings (JSMap.set id meeting) st)).
Proof.
  intros Ht He Hm Hid Htitle Hc Hr. apply strict_equal_string in He.
  subst type.
  unfold handleWebSocketMessage. unfold bind at 1. unfold lift at 1.
  rewrite Ht. cbn [JS.strict_equal String.eqb Ascii.eqb Bool.eqb].
  unfold bind at 1. unfold lift at 1. rewrite Hm.
  unfold bind at 1.
  assert (A : addActiveMeeting meeting st
              = (Normal tt,
                 set_active_meetings (Cards html)
                   (set_activeMeetings (JSMap.set id meeting) st))).
  { unfold addActiveMeeting. unfold bind at 1. unfold lift. rewrite Hid.
    unfold bind at 1. unfold modify.
    rewrite updateActiveMeetingsDisplay_run.
    change (activeMeetings (set_activeMeetings (JSMap.set id meeting) st))
      with (JSMap.set id meeting (activeMeetings st)).
    rewrite Hr. unfold shown.
    destruct (JSMap.size (JSMap.set id meeting (activeMeetings st)) =? 0)%nat
      eqn:E; [|reflexivity].
    apply Nat.eqb_eq in E. apply set_not_empty in E. contradiction. }
  rewrite A. unfold bind, lift. rewrite ?Hm, Htitle.
  unfold JS.ToString. rewrite Hc. reflexivity.
Qed.

(** X9.  A transcript_update whose [text] is a string adds one line to
    the feed, made of the first 50 code units of the text, and changes
    nothing else; when [text] is anything but a string (absent, null, a
    number) the dispatcher throws a TypeError and the page is as it
    was. *)
Theorem transcript_update_needs_string data type st :
  JS.get data "type" = Normal type ->
  JS.strict_equal type (JStr "transcript_update") = true ->
  (forall s,
      JS.get data "text" = Normal (JStr s) ->
      handleWebSocketMessage data st
      = addLiveUpdate
          [Lit "Live transcript: "; Substring s 0 50; Lit "..."]
          "transcript" st)
  /\ (forall v,
         JS.get data "text" = Normal v ->
         (forall s, v <> JStr s) ->
         handleWebSocketMessage data st = (Throw TypeError, st)).
Proof.
  intros Ht He. apply strict_equal_string in He. subst type.
  assert (H : handleWebSocketMessage data st
              = (text <- lift (JS.get data "text") ;;
                 head <- lift (substring text 0 50) ;;
                 addLiveUpdate [Lit "Live transcript: "; head; Lit "..."]
                   "transcript") st).
  { unfold handleWebSocketMessage. unfold bind at 1. unfold lift at 1.
    rewrite Ht. reflexivity. }
  rewrite H. split.
  - intros s Hs. unfold bind at 1. unfold lift at 1. rewrite Hs. reflexivity.
  - intros v Hv Hn. unfold bind at 1. unfold lift at 1. rewrite Hv.
    destruct v; try reflexivity. exfalso. eapply Hn. reflexivity.
Qed.

(** X10.  A pong changes nothing at all. *)
Theorem pong_changes_nothing data type st :
  JS.get data "type" = Normal type ->
  JS.strict_equal type (JStr "pong") = true ->
  handleWebSocketMessage data st = (Normal tt, st).
Proof.
  intros Ht He. apply strict_equal_string in He. subst type.
  unfold handleWebSocketMessage. unfold bind at 1. unfold lift at 1.
  rewrite Ht. reflexivity.
Qed.

Lemma render_row_TypeError m e : render_row m = Throw e -> e = TypeError.
Proof.
  unfold render_row, and_then, JS.ToString.
  repeat match goal with
         | |- context [match JS.get ?x ?n with _ => _ end] =>
             let E := fresh in
             destruct (JS.get x n) eqn:E;
             [|apply get_TypeError in E; congruence]
         | |- context [if ?b then _ else _] => destruct b
         end; congruence.
Qed.

(** The three ways [updateMeetingHistory] can end. *)
Lemma updateMeetingHistory_run meetings st :
  updateMeetingHistory meetings st
  = (Normal tt, set_meeting_history NoHistory st)
  \/ (exists rows,
         updateMeetingHistory meetings st
         = (Normal tt, set_meeting_history (Rows rows) st))
  \/ updateMeetingHistory meetings st = (Throw TypeError, st).
Proof.
  unfold updateMeetingHistory.
  destruct (negb (JS.truthy meetings) || length_is_zero meetings);
    [left; reflexivity|].
  right. destruct meetings; try (right; reflexivity).
  unfold bind, lift, modify.
  destruct (traverse render_row elems) as [rows|e] eqn:R.
  - left. exists rows. reflexivity.
  - right. apply traverse_TypeError in R; [subst; reflexivity|].
    apply render_row_TypeError.
Qed.

(** X11.  [updateMeetingHistory] either replaces the table and nothing
    else, with the notice of an empty history for a value that is falsy
    or has length 0 and with one row per meeting, in order, for a
    non-empty array whose rows can all be drawn; or it throws a TypeError
    (the value is no array, or a row cannot be drawn) and the page,
    table included, is as it was. *)
Theorem updateMeetingHistory_all_or_nothing meetings st :
  (updateMeetingHistory meetings st
   = (Normal tt, set_meeting_history NoHistory st)
   /\ (JS.truthy meetings = false \/ length_is_zero meetings = true))
  \/ (exists ref elems rows,
         meetings = JArr ref elems /\ elems <> []
         /\ traverse render_row elems = Normal rows
         /\ List.length rows = List.length elems
         /\ updateMeetingHistory meetings st
            = (Normal tt, set_meeting_history (Rows rows) st))
  \/ updateMeetingHistory meetings st = (Throw TypeError, st).
Proof.
  unfold updateMeetingHistory.
  destruct (JS.truthy meetings) eqn:T; cbn [negb orb]; [|left; auto].
  destruct (length_is_zero meetings) eqn:Z; [left; auto|].
  right.
  destruct meetings; try (right; reflexivity).
  unfold bind, lift, modify.
  destruct (traverse render_row elems) as [rows|e] eqn:R.
  - left. exists ref, elems, rows. repeat split; auto.
    + intros ->. discriminate.
    + apply (traverse_length _ _ _ R).
  - right. apply traverse_TypeError in R; [subst; reflexivity|].
    apply render_row_TypeError.
Qed.

(** X12.  The rest of [loadMeetingHistory] never throws: a request that
    failed, a response that is no JSON, a value that is no list of
    meetings are caught, give one error line on the console and leave the
    table as it was; otherwise the table is updated and nothing is
    logged.  The registry is not touched either way. *)
Theorem loadMeetingHistory_failure_is_logged response st :
  let st' := snd (loadMeetingHistory_resume response st) in
  fst (loadMeetingHistory_resume response st) = Normal tt
  /\ activeMeetings st' = activeMeetings st
  /\ ((exists meetings,
          response = Normal meetings
          /\ fst (updateMeetingHistory meetings st) = Normal tt
          /\ st' = snd (updateMeetingHistory meetings st))
      \/ (exists e,
             st' = set_console (fun l => (l ++ [history_error e])%list) st
             /\ (response = Throw e
                 \/ exists meetings,
                     response = Normal meetings
                     /\ updateMeetingHistory meetings st
                        = (Throw e, st)))).
Proof.
  intros st'. subst st'.
  destruct response as [meetings|e].
  - assert (H : loadMeetingHistory_resume (Normal meetings) st
                = match updateMeetingHistory meetings st with
                  | (Normal a, st') => (Normal a, st')
                  | (Throw e, st') =>
                      console_error "Error loading meeting history:"
                        (Exception e) st'
                  end) by reflexivity.
    rewrite H. clear H.
    destruct (updateMeetingHistory_run meetings st)
      as [H | [[rows H] | H]];
      rewrite H; cbn [fst snd].
    + repeat split. left. exists meetings. rewrite H. auto.
    + repeat split. left. exists meetings. rewrite H. auto.
    + repeat split. right. exists TypeError. split; [reflexivity|].
      right. exists meetings. auto.
  - cbn. repeat split. right. exists e. auto.
Qed.

(** X13.  A payload that decodes to null makes the message handler throw
    a TypeError, with nothing changed; a payload that decodes to a value
    with no [type] to read (a number, a string, an array, an object
    without the member) is logged as an unknown type and dropped. *)
Theorem payload_without_type f st :
  (forall n,
      JSON.parse (next_ref st) (event_data f) = Some (JNull, n) ->
      onmessage f st = (Throw TypeError, set_next_ref n st))
  /\ (forall v n,
         JSON.parse (next_ref st) (event_data f) = Some (v, n) ->
         JS.get v "type" = Normal JUndefined ->
         onmessage f st
         = (Normal tt,
            set_console
              (fun l =>
                 (l ++ [Console LogLevel "Unknown WebSocket message type:"
                          (Value JUndefined)])%list)
              (set_next_ref n st))).
Proof.
  split.
  - intros n H. unfold onmessage, bind, JSON_parse. rewrite H. reflexivity.
  - intros v n H Hv. unfold onmessage. unfold bind at 1. unfold JSON_parse.
    rewrite H. unfold handleWebSocketMessage, bind, lift. rewrite Hv.
    reflexivity.
Qed.

(* ===================================================================== *)
(** ** Further properties: the feed *)
(* ===================================================================== *)

Lemma no_markup_app a b :
  HTML.no_markup (a ++ b) = HTML.no_markup a && HTML.no_markup b.
Proof.
  induction a as [|c a IH]; simpl; [reflexivity|].
  rewrite IH. apply andb_assoc.
Qed.

(** Text without [<] leaves the tokenizer in the data state. *)
Lemma count_text s t :
  HTML.no_markup s = true ->
  HTML.count HTML.Data (s ++ t) = HTML.count HTML.Data t.
Proof.
  induction s as [|c s IH]; intros H; [reflexivity|].
  cbn [HTML.no_markup] in H. apply andb_prop in H as [H1 H2].
  cbn [append HTML.count HTML.next fst snd].
  destruct (Ascii.eqb c "<"); [discriminate|]. apply IH. exact H2.
Qed.

Lemma alerts_text s :
  HTML.no_markup s = true -> HTML.alerts (s ++ "</div>") = 0%nat.
Proof.
  intros H. unfold HTML.alerts. rewrite count_text by exact H. reflexivity.
Qed.

Lemma take_units_plain s : forall n,
  HTML.no_markup s = true -> HTML.no_markup (take_units n s) = true.
Proof.
  induction s as [|c s IH]; intros n H; [reflexivity|].
  cbn [HTML.no_markup] in H. apply andb_prop in H as [H1 H2].
  cbn [take_units].
  destruct (continuation c); [|destruct (code_units c <=? n)%nat];
    cbn [HTML.no_markup]; try rewrite H1; try rewrite IH; auto.
Qed.

Lemma drop_units_plain s : forall n,
  HTML.no_markup s = true -> HTML.no_markup (drop_units n s) = true.
Proof.
  induction s as [|c s IH]; intros n H; [reflexivity|].
  pose proof H as H0.
  cbn [HTML.no_markup] in H. apply andb_prop in H as [H1 H2].
  cbn [drop_units].
  destruct (continuation c); [|destruct (code_units c <=? n)%nat]; auto.
Qed.

Lemma show_plain : forall v,
  plain_value v = true -> HTML.no_markup (show v) = true.
Proof.
  fix IH 1. intros v. destruct v as [ | | [|] | q | s | ref elems | ref props];
    intros H; try reflexivity.
  - exact H.
  - cbn [show plain_value] in *. revert elems H.
    fix IHl 1. intros elems. destruct elems as [|x r]; intros H.
    + reflexivity.
    + apply andb_prop in H as [H1 H2].
      pose proof (IH x H1) as Kx. pose proof (IHl r H2) as Kr.
      rewrite no_markup_app. apply andb_true_intro. split.
      * destruct x; try reflexivity; exact Kx.
      * destruct r as [|y r']; [reflexivity|].
        rewrite no_markup_app. exact Kr.
Qed.

Lemma piece_source_plain p :
  plain_piece p = true -> HTML.no_markup (piece_source p) = true.
Proof.
  destruct p as [s|v|s a b]; simpl; intros H.
  - exact H.
  - apply show_plain. exact H.
  - apply take_units_plain, drop_units_plain. exact H.
Qed.

Lemma concat_plain line :
  plain line = true ->
  HTML.no_markup (String.concat EmptyString (map piece_source line)) = true.
Proof.
  induction line as [|p line IH]; intros H; [reflexivity|].
  cbn [plain forallb] in H. apply andb_prop in H as [H1 H2].
  cbn [map String.concat]. destruct (map piece_source line) eqn:E.
  - apply piece_source_plain. exact H1.
  - rewrite !no_markup_app, piece_source_plain by exact H1.
    apply IH. exact H2.
Qed.

(** A message without [<] creates no element. *)
Lemma innerHTML_plain line :
  plain line = true -> HTML.alerts (innerHTML_tail line) = 0%nat.
Proof.
  intros H. unfold innerHTML_tail. apply alerts_text, concat_plain. exact H.
Qed.

Lemma plain_feed_count l :
  plain_feed l -> querySelectorAll_alert l = List.length l.
Proof.
  induction 1 as [|u l H _ IH]; [reflexivity|].
  cbn [querySelectorAll_alert List.length]. rewrite H, IH. reflexivity.
Qed.

Lemma plain_feed_remove l :
  plain_feed l -> remove_last_alert l = removelast l.
Proof.
  induction 1 as [|u l H _ IH]; [reflexivity|].
  cbn [remove_last_alert removelast]. destruct l as [|v l].
  - rewrite H. reflexivity.
  - rewrite IH. reflexivity.
Qed.

Lemma plain_feed_removelast l : plain_feed l -> plain_feed (removelast l).
Proof.
  induction 1 as [|u l H _ IH]; [constructor|].
  cbn [removelast]. destruct l; constructor; auto.
Qed.

Lemma removelast_length {A} (l : list A) :
  List.length (removelast l) = pred (List.length l).
Proof. rewrite removelast_firstn_len, length_firstn. lia. Qed.

(** Whatever the message, the call returns and the new line is first. *)
Lemma addLiveUpdate_head line type st :
  fst (addLiveUpdate line type st) = Normal tt
  /\ exists new rest,
      live_updates (snd (addLiveUpdate line type st)) = new :: rest
      /\ message new = line /\ timestamp new = now st.
Proof.
  unfold addLiveUpdate, bind, gets, modify. fields.
  match goal with
  | |- context [(10 <? ?n)%nat] => destruct (Nat.ltb_spec 10 n) as [L|L]
  end; fields; (split; [reflexivity|]).
  - destruct (live_updates st) as [|u r] eqn:E.
    + cbn [querySelectorAll_alert nested] in L.
      cbn [remove_last_alert nested].
      destruct (HTML.alerts (innerHTML_tail line)); [lia|].
      eexists. eexists. repeat split.
    + cbn [remove_last_alert]. eexists. eexists. repeat split.
  - eexists. eexists. repeat split.
Qed.

(** What the call does with a message and a feed without markup. *)
Lemma addLiveUpdate_plain message type st :
  plain message = true -> plain_feed (live_updates st) ->
  live_updates (snd (addLiveUpdate message type st))
  = {| className :=
         "alert alert-" ++ getBootstrapClass type
           ++ " alert-dismissible fade show mb-2";
       timestamp := now st; message := message; nested := 0 |}
      :: (if (List.length (live_updates st) <? 10)%nat
          then live_updates st
          else removelast (live_updates st)).
Proof.
  intros Hm Hl. unfold addLiveUpdate, bind, gets, modify. fields.
  rewrite (innerHTML_plain _ Hm).
  cbn [querySelectorAll_alert nested]. rewrite (plain_feed_count _ Hl).
  destruct (Nat.ltb_spec 10 (1 + List.length (live_updates st)));
    destruct (Nat.ltb_spec (List.length (live_updates st)) 10);
    try lia; fields; [|reflexivity].
  destruct (live_updates st) as [|u r] eqn:E; [simpl in *; lia|].
  cbn [remove_last_alert]. f_equal. exact (plain_feed_remove (u :: r) Hl).
Qed.

(** X14.  On a feed without markup, a message without markup removes one
    line at most: a feed that already holds 10 lines or more holds as
    many afterwards as before, with the new line first and the last one
    gone, and still without markup.  A feed longer than 10 is not cut
    down to 10. *)
Theorem addLiveUpdate_removes_one line type st :
  plain line = true ->
  plain_feed (live_updates st) ->
  (10 <= List.length (live_updates st))%nat ->
  fst (addLiveUpdate line type st) = Normal tt
  /\ List.length (live_updates (snd (addLiveUpdate line type st)))
     = List.length (live_updates st)
  /\ plain_feed (live_updates (snd (addLiveUpdate line type st)))
  /\ exists new,
      live_updates (snd (addLiveUpdate line type st))
      = new :: removelast (live_updates st)
      /\ message new = line /\ timestamp new = now st.
Proof.
  intros Hm Hl H.
  pose proof (addLiveUpdate_plain line type st Hm Hl) as L.
  assert (E : (List.length (live_updates st) <? 10)%nat = false)
    by (apply Nat.ltb_ge; exact H).
  rewrite E in L. split; [apply addLiveUpdate_head|]. rewrite L. split.
  - simpl. rewrite removelast_length. lia.
  - split.
    + constructor; [reflexivity|]. apply plain_feed_removelast. exact Hl.
    + eexists. split; [reflexivity|split; reflexivity].
Qed.

Lemma addLiveUpdate_feed_ok message type :
  plain message = true -> preserves feed_ok (addLiveUpdate message type).
Proof.
  intros Hm st [Hl H]. unfold feed_ok.
  rewrite (addLiveUpdate_plain message type st Hm Hl).
  destruct (Nat.ltb_spec (List.length (live_updates st)) 10); split.
  - constructor; [reflexivity|exact Hl].
  - simpl. lia.
  - constructor; [reflexivity|]. apply plain_feed_removelast. exact Hl.
  - simpl. rewrite removelast_length. lia.
Qed.

(** X21.  On a feed without markup that holds at most 10 elements of
    class [alert], a message without markup leaves a feed without markup
    that holds at most 10, all of them lines: the bound the comment of
    [addLiveUpdate] speaks of holds as long as no markup is involved. *)
Theorem addLiveUpdate_bound_plain line type st :
  plain line = true ->
  plain_feed (live_updates st) ->
  (querySelectorAll_alert (live_updates st) <= 10)%nat ->
  let feed := live_updates (snd (addLiveUpdate line type st)) in
  fst (addLiveUpdate line type st) = Normal tt
  /\ plain_feed feed
  /\ (querySelectorAll_alert feed <= 10)%nat
  /\ querySelectorAll_alert feed = List.length feed.
Proof.
  intros Hm Hl H feed. rewrite (plain_feed_count _ Hl) in H.
  destruct (addLiveUpdate_feed_ok line type Hm st (conj Hl H)) as [Kl Kn].
  fold feed in Kl, Kn. rewrite (plain_feed_count _ Kl).
  split; [apply addLiveUpdate_head|]. auto.
Qed.

Lemma keeps_feed_ok {A} (c : js A) :
  keeps live_updates c -> preserves feed_ok c.
Proof.
  intros H. apply (preserves_keeps live_updates
                     (fun l => plain_feed l /\ (List.length l <= 10)%nat)).
  exact H.
Qed.

Lemma preserves_bind_lift {A B} (P : page -> Prop) (c : completion A)
    (k : A -> js B) :
  (forall a, c = Normal a -> preserves P (k a)) ->
  preserves P (bind (lift c) k).
Proof.
  intros H st Hst. unfold bind, lift. destruct c as [a|e]; [|exact Hst].
  apply (H a eq_refl). exact Hst.
Qed.




Ltac feed :=
  repeat first
    [ match goal with
      | |- preserves _ (addLiveUpdate _ _) => apply addLiveUpdate_feed_ok
      end
    | apply keeps_feed_ok; solve [auto with keeps | keep]
    | apply keeps_feed_ok; apply keeps_modify; intros ? ?; reflexivity
    | apply preserves_bind_lift; intros ? ?
    | apply preserves_bind; [ | intros ]
    | match goal with
      | |- preserves _ (if ?b then _ else _) => destruct b
      end ].







(* ===================================================================== *)
(** ** Further properties: sessions *)
(* ===================================================================== *)

Lemma step_keeps_registry st task :
  is_message (snd task) = false ->
  activeMeetings (step st task) = activeMeetings st.
Proof.
  destruct task as [t e]. cbn [snd]. intros H. unfold step.
  destruct e; try discriminate.
  - destruct (ready i (set_now t st)) as [[]|]; auto.
    rewrite keeps_run_handler; auto with keeps.
  - destruct (ready i (set_now t st)) as [[]|]; auto;
      rewrite keeps_run_handler; auto with keeps.
  - destruct (ready i (set_now t st)) as [[]|]; auto.
  - destruct (ready i (set_now t st)) as [[]|]; auto;
      rewrite keeps_run_handler; auto with keeps.
  - destruct (nth_error (timeouts (set_now t st)) k) as [[d g]|]; auto.
    rewrite keeps_run_handler; auto with keeps.
  - destruct (nth_error (intervals (set_now t st)) k) as [[d g]|]; auto.
    rewrite keeps_run_handler; auto with keeps.
  - destruct (requests (set_now t st)); auto.
    rewrite keeps_run_handler; auto with keeps.
Qed.

(** X16.  The registry survives a disconnection and the reconnection:
    among the tasks of the sockets, of the timers and of the history
    request, those that are no inbound message (a session opening,
    failing, closing, the reconnect timeout, the heartbeat, the answer
    to the history request) leave it as it is, in whatever number and
    order they run.  The clicks on the page's buttons are no such
    tasks, and what they do to the registry is not stated here. *)
Theorem registry_survives_reconnect st tasks :
  no_message tasks = true ->
  activeMeetings (run st tasks) = activeMeetings st.
Proof.
  unfold run. revert st. induction tasks as [|task tasks IH]; intros st H.
  - reflexivity.
  - cbn [no_message forallb] in H. apply andb_prop in H as [H1 H2].
    cbn [fold_left]. rewrite (IH _ H2). apply step_keeps_registry.
    destruct (is_message (snd task)); [discriminate|reflexivity].
Qed.















Lemma set_nth_Forall {A} (P : A -> Prop) (l : list A) : forall i x,
  P x -> Forall P l -> Forall P (set_nth i x l).
Proof.
  induction l as [|y l IH]; intros [|i] x Hx H; simpl; auto;
    inversion H; subst; constructor; auto.
Qed.

Lemma set_ready_urls_ok protocol host i r st :
  urls_ok protocol host st -> urls_ok protocol host (set_ready i r st).
Proof.
  intros (A & B & C). unfold urls_ok, set_ready. fields.
  repeat split; auto.
  destruct (nth_error (sockets st) i) as [s|] eqn:E; auto.
  apply set_nth_Forall; auto. simpl.
  eapply Forall_forall in C; [exact C|]. eapply nth_error_In. exact E.
Qed.

Lemma urls_ok_wiring protocol host st st' :
  location_protocol st' = location_protocol st ->
  location_host st' = location_host st ->
  sockets st' = sockets st ->
  urls_ok protocol host st -> urls_ok protocol host st'.
Proof. unfold urls_ok. intros -> -> ->. auto. Qed.

Lemma connect_urls_ok protocol host st :
  urls_ok protocol host st ->
  urls_ok protocol host (snd (connectWebSocket st)).
Proof.
  intros (A & B & C). rewrite connectWebSocket_opens. unfold urls_ok. fields.
  repeat split; auto.
  apply Forall_app. split; auto.
  constructor; [|constructor]. simpl. rewrite A, B. reflexivity.
Qed.

Lemma step_urls_ok protocol host st task :
  urls_ok protocol host st -> urls_ok protocol host (step st task).
Proof.
  intros H. destruct task as [t e]. unfold step.
  assert (H0 : urls_ok protocol host (set_now t st)) by exact H.
  assert (K : forall c st',
             keeps location_protocol c -> keeps location_host c ->
             keeps sockets c ->
             urls_ok protocol host st' ->
             urls_ok protocol host (run_handler c st')).
  { intros c st' K1 K2 K3. apply urls_ok_wiring.
    - apply keeps_run_handler; [ign|exact K1].
    - apply keeps_run_handler; [ign|exact K2].
    - apply keeps_run_handler; [ign|exact K3]. }
  destruct e;
    repeat match goal with
           | |- context [match ?y with _ => _ end] => destruct y eqn:?
           end;
    auto;
    try solve [apply set_ready_urls_ok; exact H0];
    try solve [apply K; auto with keeps;
               try apply set_ready_urls_ok; exact H0].
  - destruct c; simpl call.
    + rewrite run_handler_normal by reflexivity.
      apply connect_urls_ok. exact H0.
    + apply K; auto with keeps.
  - destruct c; simpl call.
    + rewrite run_handler_normal by reflexivity.
      apply connect_urls_ok. exact H0.
    + apply K; auto with keeps.
Qed.

(** X18.  Every session the page ever opens, on load or on reconnection,
    goes to the same address: the page's host, path /ws/dashboard, over
    wss: when the page was served over https: and over ws: otherwise. *)
Theorem every_session_same_url protocol host tasks i s :
  nth_error (sockets (run (loaded protocol host) tasks)) i = Some s ->
  url s = ((if String.eqb protocol "https:" then "wss:" else "ws:")
             ++ "//" ++ host ++ "/ws/dashboard").
Proof.
  assert (G : forall l st, urls_ok protocol host st ->
                           urls_ok protocol host (run st l)).
  { unfold run. induction l as [|x l IH]; simpl; auto.
    intros st H. apply IH. apply step_urls_ok. exact H. }
  assert (L : urls_ok protocol host (loaded protocol host)).
  { repeat split. constructor; [|constructor]. reflexivity. }
  intros E. destruct (G tasks _ L) as (_ & _ & C).
  eapply Forall_forall in C; [exact C|]. eapply nth_error_In. exact E.
Qed.



(* ===================================================================== *)
(** ** Further properties: the end of a meeting *)
(* ===================================================================== *)

(** X20.  A meeting_ended event whose meeting has a title that converts
    to a string, on a page whose remaining cards can be drawn, is
    dispatched without a throw: the entry of [meeting_id] is removed, the
    cards are redrawn from what is left, the feed gets the line
    "Meeting ended: " followed by the title at its head, and the meeting
    history is requested once more. *)
Theorem meeting_ended_removes data type id meeting title html st :
  JS.get data "type" = Normal type ->
  JS.strict_equal type (JStr "meeting_ended") = true ->
  JS.get data "meeting_id" = Normal id ->
  JS.get data "meeting" = Normal meeting ->
  JS.get meeting "title" = Normal title ->
  JS.convertible title = true ->
  traverse render_card (JSMap.delete id (activeMeetings st)) = Normal html ->
  let st' := snd (handleWebSocketMessage data st) in
  fst (handleWebSocketMessage data st) = Normal tt
  /\ activeMeetings st' = JSMap.delete id (activeMeetings st)
  /\ active_meetings st' = shown (JSMap.delete id (activeMeetings st)) html
  /\ (exists u rest,
         live_updates st' = u :: rest
         /\ message u = [Lit "Meeting ended: "; Sub title])
  /\ requests st' = (requests st ++ ["/api/agent/meetings"])%list.
Proof.
  intros Ht He Hid Hm Htitle Hc Hr. apply strict_equal_string in He.
  subst type.
  set (mid := set_active_meetings
                (shown (JSMap.delete id (activeMeetings st)) html)
                (set_activeMeetings (JSMap.delete id) st)).
  assert (R : removeActiveMeeting id st = (Normal tt, mid)).
  { unfold removeActiveMeeting. unfold bind at 1. unfold modify.
    rewrite updateActiveMeetingsDisplay_run.
    change (activeMeetings (set_activeMeetings (JSMap.delete id) st))
      with (JSMap.delete id (activeMeetings st)).
    rewrite Hr. reflexivity. }
  destruct (addLiveUpdate_head [Lit "Meeting ended: "; Sub title] "info" mid)
    as [F1 (new & rest & F2 & F3 & _)].
  assert (E : handleWebSocketMessage data st
              = (Normal tt,
                 set_requests
                   (fun l => (l ++ ["/api/agent/meetings"])%list)
                   (snd (addLiveUpdate [Lit "Meeting ended: "; Sub title]
                           "info" mid)))).
  { unfold handleWebSocketMessage. unfold bind at 1. unfold lift at 1.
    rewrite Ht. cbn [JS.strict_equal String.eqb Ascii.eqb Bool.eqb].
    unfold bind at 1. unfold lift at 1. rewrite Hid.
    unfold bind at 1. rewrite R.
    unfold bind at 1. unfold lift at 1. rewrite Hm.
    unfold bind at 1. unfold lift at 1. rewrite Htitle.
    unfold bind at 1. unfold lift at 1. unfold JS.ToString. rewrite Hc.
    unfold bind at 1.
    destruct (addLiveUpdate [Lit "Meeting ended: "; Sub title] "info" mid)
      as [[[]|e] st2]; simpl in F1; [reflexivity|discriminate]. }
  intros st'. subst st'. rewrite E. cbn [fst snd].
  repeat split.
  - change (activeMeetings
              (snd (addLiveUpdate [Lit "Meeting ended: "; Sub title] "info"
                      mid))
            = activeMeetings mid).
    apply addLiveUpdate_keeps. ign.
  - change (active_meetings
              (snd (addLiveUpdate [Lit "Meeting ended: "; Sub title] "info"
                      mid))
            = active_meetings mid).
    apply addLiveUpdate_keeps. ign.
  - exists new, rest. split.
    + change (live_updates
                (set_requests _
                   (snd (addLiveUpdate [Lit "Meeting ended: "; Sub title]
                           "info" mid))))
        with (live_updates
                (snd (addLiveUpdate [Lit "Meeting ended: "; Sub title]
                        "info" mid))).
      exact F2.
    + exact F3.
  - change (requests
              (snd (addLiveUpdate [Lit "Meeting ended: "; Sub title] "info"
                      mid)) ++ ["/api/agent/meetings"]
            = requests mid ++ ["/api/agent/meetings"])%list.
    f_equal. apply addLiveUpdate_keeps. ign.
Qed.

(* ===================================================================== *)
(** ** Instances of the further properties *)
(* ===================================================================== *)

Lemma remove_absent_unchanged_witness :
  JSMap.has (JStr "m9") (activeMeetings example_m3) = false
  /\ activeMeetings (snd (removeActiveMeeting (JStr "m9") example_m3))
     = activeMeetings example_m3.
Proof.
  assert (H : JSMap.has (JStr "m9") (activeMeetings example_m3) = false)
    by (vm_compute; reflexivity).
  split; [exact H|].
  exact (remove_absent_unchanged (JStr "m9") example_m3 H).
Defined.

Lemma add_then_lookup_witness :
  JS.get (example_meeting "m4" "Review" 42) "meeting_id"
  = Normal (JStr "m4")
  /\ Map_get (JStr "m4")
       (activeMeetings
          (snd (addActiveMeeting (example_meeting "m4" "Review" 42)
                  example_m3)))
     = Some (example_meeting "m4" "Review" 42).
Proof.
  split; [reflexivity|].
  exact (proj1 (add_then_lookup (example_meeting "m4" "Review" 42)
                  (JStr "m4") example_m3 eq_refl)).
Defined.

Lemma add_then_remove_witness :
  JS.get (example_meeting "m4" "Review" 42) "meeting_id"
  = Normal (JStr "m4")
  /\ activeMeetings
       (snd (removeActiveMeeting (JStr "m4")
               (snd (addActiveMeeting (example_meeting "m4" "Review" 42)
                       example_m3))))
     = JSMap.delete (JStr "m4") (activeMeetings example_m3).
Proof.
  split; [reflexivity|].
  exact (proj1 (add_then_remove (example_meeting "m4" "Review" 42)
                  (JStr "m4") example_m3 eq_refl)).
Defined.

Lemma undrawable_meeting_blocks_display_witness :
  In (JStr "m5", example_poisoned) (activeMeetings example_stuck)
  /\ render_card (JStr "m5", example_poisoned) = Throw TypeError
  /\ addActiveMeeting (example_meeting "m4" "Review" 42) example_stuck
     = (Throw TypeError,
        set_activeMeetings
          (JSMap.set (JStr "m4") (example_meeting "m4" "Review" 42))
          example_stuck).
Proof.
  assert (H : In (JStr "m5", example_poisoned) (activeMeetings example_stuck))
    by (vm_compute; left; reflexivity).
  split; [exact H|]. split; [reflexivity|].
  exact (undrawable_meeting_blocks_display (JStr "m5") example_poisoned
           TypeError (example_meeting "m4" "Review" 42) (JStr "m4")
           example_stuck H eq_refl eq_refl eq_refl).
Defined.

Lemma meeting_started_needs_meeting_witness :
  JS.get example_started_bare "meeting" = Normal JUndefined
  /\ handleWebSocketMessage example_started_bare example_m3
     = (Throw TypeError, example_m3).
Proof.
  split; [reflexivity|].
  exact (meeting_started_needs_meeting example_started_bare
           (JStr "meeting_started") example_m3 eq_refl eq_refl
           (or_introl eq_refl)).
Defined.

Lemma meeting_started_stores_witness :
  traverse render_card
    (JSMap.set (JStr "m4") (example_meeting "m4" "Review" 42)
       (activeMeetings example_open))
  = Normal
      [{| card_id := JStr "m4"; card_title := JStr "Review";
          card_platform := JStr "zoom";
          card_start := JStr "2024-01-01T09:00:00Z" |}]
  /\ handleWebSocketMessage example_started example_open
     = addLiveUpdate [Lit "Meeting started: "; Sub (JStr "Review")] "info"
         (set_active_meetings
            (Cards
               [{| card_id := JStr "m4"; card_title := JStr "Review";
                   card_platform := JStr "zoom";
                   card_start := JStr "2024-01-01T09:00:00Z" |}])
            (set_activeMeetings
               (JSMap.set (JStr "m4") (example_meeting "m4" "Review" 42))
               example_open)).
Proof.
  assert (H : traverse render_card
                (JSMap.set (JStr "m4") (example_meeting "m4" "Review" 42)
                   (activeMeetings example_open))
              = Normal
                  [{| card_id := JStr "m4"; card_title := JStr "Review";
                      card_platform := JStr "zoom";
                      card_start := JStr "2024-01-01T09:00:00Z" |}])
    by (vm_compute; reflexivity).
  split; [exact H|].
  exact (meeting_started_stores example_started (JStr "meeting_started")
           (example_meeting "m4" "Review" 42) (JStr "m4") (JStr "Review")
           _ example_open eq_refl eq_refl eq_refl eq_refl eq_refl eq_refl H).
Defined.

Lemma transcript_update_needs_string_witness :
  JS.get example_transcript "text" = Normal (JStr "hello")
  /\ handleWebSocketMessage example_transcript example_open
     = addLiveUpdate
         [Lit "Live transcript: "; Substring "hello" 0 50; Lit "..."]
         "transcript" example_open
  /\ JS.get example_transcript_bad "text" = Normal (JNum 5)
  /\ handleWebSocketMessage example_transcript_bad example_open
     = (Throw TypeError, example_open).
Proof.
  split; [reflexivity|]. split.
  - exact (proj1 (transcript_update_needs_string example_transcript
                    (JStr "transcript_update") example_open eq_refl eq_refl)
             "hello" eq_refl).
  - split; [reflexivity|].
    refine (proj2 (transcript_update_needs_string example_transcript_bad
                     (JStr "transcript_update") example_open eq_refl eq_refl)
              (JNum 5) eq_refl _).
    intros s. discriminate.
Defined.

Lemma pong_changes_nothing_witness :
  JS.get example_pong "type" = Normal (JStr "pong")
  /\ handleWebSocketMessage example_pong example_m3 = (Normal tt, example_m3).
Proof.
  split; [reflexivity|].
  exact (pong_changes_nothing example_pong (JStr "pong") example_m3
           eq_refl eq_refl).
Defined.

Lemma payload_without_type_witness :
  JSON.parse (next_ref example_open) (event_data (TextFrame "null"))
  = Some (JNull, 0%nat)
  /\ onmessage (TextFrame "null") example_open
     = (Throw TypeError, set_next_ref 0 example_open)
  /\ JSON.parse (next_ref example_open) (event_data (TextFrame "{}"))
     = Some (JObj 0 [], 1%nat)
  /\ fst (onmessage (TextFrame "{}") example_open) = Normal tt.
Proof.
  assert (H : JSON.parse (next_ref example_open)
                (event_data (TextFrame "null"))
              = Some (JNull, 0%nat)) by (vm_compute; reflexivity).
  assert (K : JSON.parse (next_ref example_open)
                (event_data (TextFrame "{}"))
              = Some (JObj 0 [], 1%nat)) by (vm_compute; reflexivity).
  split; [exact H|].
  split; [exact (proj1 (payload_without_type (TextFrame "null")
                          example_open) 0%nat H)|].
  split; [exact K|].
  exact (f_equal fst
           (proj2 (payload_without_type (TextFrame "{}") example_open)
              (JObj 0 []) 1%nat K eq_refl)).
Defined.

Lemma addLiveUpdate_removes_one_witness :
  plain [Lit "Connection error"] = true
  /\ plain_feed (live_updates example_full_feed)
  /\ (10 <= List.length (live_updates example_full_feed))%nat
  /\ List.length
       (live_updates
          (snd (addLiveUpdate [Lit "Connection error"] "error"
                  example_full_feed)))
     = List.length (live_updates example_full_feed).
Proof.
  assert (P : plain_feed (live_updates example_full_feed))
    by (repeat constructor).
  assert (H : (10 <= List.length (live_updates example_full_feed))%nat)
    by apply le_n.
  split; [reflexivity|]. split; [exact P|]. split; [exact H|].
  exact (proj1 (proj2 (addLiveUpdate_removes_one [Lit "Connection error"]
                         "error" example_full_feed eq_refl P H))).
Defined.

Lemma addLiveUpdate_bound_plain_witness :
  plain [Lit "Connection error"] = true
  /\ plain_feed (live_updates example_full_feed)
  /\ (querySelectorAll_alert (live_updates example_full_feed) <= 10)%nat
  /\ (querySelectorAll_alert
        (live_updates
           (snd (addLiveUpdate [Lit "Connection error"] "error"
                   example_full_feed))) <= 10)%nat.
Proof.
  assert (P : plain_feed (live_updates example_full_feed))
    by (repeat constructor).
  assert (H : (querySelectorAll_alert (live_updates example_full_feed)
               <= 10)%nat) by apply le_n.
  split; [reflexivity|]. split; [exact P|]. split; [exact H|].
  exact (proj1 (proj2 (proj2 (addLiveUpdate_bound_plain
                                [Lit "Connection error"] "error"
                                example_full_feed eq_refl P H)))).
Defined.


Lemma registry_survives_reconnect_witness :
  no_message example_reconnection = true
  /\ activeMeetings (run example_m3 example_reconnection)
     = activeMeetings example_m3.
Proof.
  split; [reflexivity|].
  exact (registry_survives_reconnect example_m3 example_reconnection
           eq_refl).
Defined.

Lemma every_session_same_url_witness :
  nth_error
    (sockets (run (loaded "https:" "dashboard.example") example_reconnected))
    1
  = Some {| url := "wss://dashboard.example/ws/dashboard";
            readyState := CONNECTING |}
  /\ url {| url := "wss://dashboard.example/ws/dashboard";
            readyState := CONNECTING |}
     = ((if String.eqb "https:" "https:" then "wss:" else "ws:")
          ++ "//" ++ "dashboard.example" ++ "/ws/dashboard").
Proof.
  assert (H : nth_error
                (sockets
                   (run (loaded "https:" "dashboard.example")
                      example_reconnected)) 1
              = Some {| url := "wss://dashboard.example/ws/dashboard";
                        readyState := CONNECTING |})
    by (vm_compute; reflexivity).
  split; [exact H|].
  exact (every_session_same_url "https:" "dashboard.example"
           example_reconnected 1%nat _ H).
Defined.


Lemma meeting_ended_removes_witness :
  traverse render_card (JSMap.delete (JStr "m3") (activeMeetings example_m3))
  = Normal []
  /\ fst (handleWebSocketMessage example_ended_full example_m3) = Normal tt
  /\ activeMeetings
       (snd (handleWebSocketMessage example_ended_full example_m3))
     = JSMap.delete (JStr "m3") (activeMeetings example_m3).
Proof.
  assert (H : traverse render_card
                (JSMap.delete (JStr "m3") (activeMeetings example_m3))
              = Normal []) by (vm_compute; reflexivity).
  pose (K := meeting_ended_removes example_ended_full (JStr "meeting_ended")
               (JStr "m3") (example_meeting "m3" "Retro" 32) (JStr "Retro")
               [] example_m3 eq_refl eq_refl eq_refl eq_refl eq_refl eq_refl
               H).
  split; [exact H|].
  split; [exact (proj1 K) | exact (proj1 (proj2 K))].
Defined.
